(** * The task-embedding VAE of babyai/models/vae_task_encoder.py

    A shallow embedding of [build_sequential], [VAETaskEncoder],
    [TaskDecoder] and [VAE], over a small model of the tensor primitives
    they call, followed by the properties of the specification.

    Python exceptions are values of [exn]; a computation that may raise is
    in [res]; one that also consumes the global random source (parameter
    initialisation, [torch.randn_like]) is in [M], which threads the
    generator state.  A tensor is its shape and its element at each
    index, over an abstract scalar type.  Widths and sizes are natural
    numbers: a negative size, which the framework refuses when it
    allocates a tensor, is outside the model. *)

From Stdlib Require Import String List Arith ZArith Lia Bool DecimalString.
Import ListNotations.

Set Implicit Arguments.

(** ** Exceptions and the two effect layers *)

Inductive exn : Type :=
| ValueError (msg : string)
| AssertionError
| IndexError (msg : string)
| AttributeError (attr : string)
| UnboundLocalError (var : string)
| RuntimeError (msg : string).

Inductive res (A : Type) : Type :=
| Ok (a : A)
| Raise (e : exn).

Arguments Ok {A} a.
Arguments Raise {A} e.

Definition bind_res {A B : Type} (c : res A) (k : A -> res B) : res B :=
  match c with
  | Ok a => k a
  | Raise e => Raise e
  end.

Notation "x <~ c ;; k" := (bind_res c (fun x => k))
  (at level 61, c at next level, right associativity).

(** The spec's error taxonomy, read on the exceptions the code raises. *)
Definition UnsupportedActivation (e : exn) : Prop :=
  exists msg, e = ValueError msg.

Definition DimensionConfigurationError (e : exn) : Prop :=
  e = AssertionError.


(** ** Index and shape helpers *)

(** [l[i]] on a Python list. *)
Definition getitem (l : list nat) (i : nat) : res nat :=
  match nth_error l i with
  | Some x => Ok x
  | None => Raise (IndexError "list index out of range")
  end.

Definition set_last (idx : list nat) (j : nat) : list nat :=
  removelast idx ++ [j].

Fixpoint map_nth (f : nat -> nat) (n : nat) (l : list nat) : list nat :=
  match l with
  | [] => []
  | x :: l' =>
      match n with
      | 0 => f x :: l'
      | S n' => x :: map_nth f n' l'
      end
  end.

Definition shape_eqb (a b : list nat) : bool :=
  if list_eq_dec Nat.eq_dec a b then true else false.

(** An index is within a shape when it has its rank and every component
    is below the matching size. *)
Definition in_range (sh idx : list nat) : Prop := Forall2 lt idx sh.

(** Broadcasting, on shapes written last axis first. *)
Fixpoint broadcast_rev (a b : list nat) : option (list nat) :=
  match a, b with
  | [], _ => Some b
  | _, [] => Some a
  | x :: a', y :: b' =>
      match broadcast_rev a' b' with
      | None => None
      | Some r =>
          if x =? y then Some (x :: r)
          else if x =? 1 then Some (y :: r)
          else if y =? 1 then Some (x :: r)
          else None
      end
  end.

Definition broadcast_shapes (a b : list nat) : option (list nat) :=
  option_map (@rev nat) (broadcast_rev (rev a) (rev b)).

(** The index an operand of shape [s] is read at, for an index of the
    broadcast result (both last axis first): extra leading axes are
    dropped and an axis of size 1 is read at 0. *)
Fixpoint expand_rev (s idx : list nat) : list nat :=
  match s, idx with
  | d :: s', i :: idx' => (if d =? 1 then 0 else i) :: expand_rev s' idx'
  | _, _ => []
  end.

Definition expand_index (s idx : list nat) : list nat :=
  rev (expand_rev (rev s) (rev idx)).

(** ** Scalars and tensors *)

(** The element type with the operations the code applies to it. *)
Class Scalar (T : Type) : Type := {
  zero : T;
  half : T;                       (* the literal 0.5 *)
  sqrt2 : T;                      (* np.sqrt(2) *)
  add : T -> T -> T;
  mul : T -> T -> T;
  exp : T -> T;
  relu : T -> T;
  tanh : T -> T
}.

(** A tensor is its sizes and its element at each index. *)
Record tensor (T : Type) : Type := mkTensor {
  shape : list nat;
  item : list nat -> T
}.

Arguments mkTensor {T} shape item.

Definition rank {T} (x : tensor T) : nat := length (shape x).

Definition last_dim {T} (x : tensor T) : nat := last (shape x) 0.

(** Two tensors are elementwise identical. *)
Definition tensor_eq {T} (a b : tensor T) : Prop :=
  shape a = shape b /\
  forall idx, in_range (shape a) idx -> item a idx = item b idx.

(** The layers [build_sequential] puts in a stack. *)
Inductive module (T : Type) : Type :=
| Linear (in_features out_features : nat) (weight bias : tensor T)
| LayerNorm (features : nat)
| ReLU
| Tanh.

(** [nn.GRU(input_size, hidden_size, num_layers)], which only the
    recurrent mode of the encoder creates; its parameters stay with the
    framework. *)
Record GRU : Type := mkGRU {
  input_size : nat;
  hidden_size : nat;
  num_layers : nat
}.

Arguments LayerNorm {T} features.
Arguments ReLU {T}.
Arguments Tanh {T}.

(** What the code takes from the framework without defining it: the
    random source, the default initialisation done by [nn.Linear], the
    initialisers of [torch.nn.init], [torchkit.modules.LayerNorm] and
    [nn.GRU].  Each comes with the part of its contract the code relies
    on. *)
Class Framework (T : Type) `{Scalar T} : Type := {
  rng : Type;
  (* nn.Linear(i, o): fresh weight of shape [o, i] and bias of shape [o] *)
  Linear_new : nat -> nat -> rng -> res ((tensor T * tensor T) * rng);
  Linear_new_ok : forall i o g, 0 < i -> 0 < o ->
    exists w b g', Linear_new i o g = Ok ((w, b), g');
  Linear_new_shape : forall i o g w b g',
    Linear_new i o g = Ok ((w, b), g') ->
    shape w = [o; i] /\ shape b = [o];
  (* nn.init.orthogonal_(w, gain): refills w in place *)
  orthogonal_ : tensor T -> T -> rng -> tensor T * rng;
  orthogonal_shape : forall w gain g,
    shape (fst (orthogonal_ w gain g)) = shape w;
  (* torch.randn: the elements of a fresh standard-normal tensor *)
  randn : list nat -> rng -> (list nat -> T) * rng;
  (* LayerNorm(features).forward *)
  LayerNorm_forward : nat -> tensor T -> res (tensor T);
  LayerNorm_forward_ok : forall n x, shape x <> [] -> last_dim x = n ->
    exists y, LayerNorm_forward n x = Ok y /\ shape y = shape x;
  (* GRU.forward(x, h): the output and the final hidden state *)
  GRU_forward : GRU -> tensor T -> option (tensor T) ->
                res (tensor T * tensor T)
}.

(** Computations that may raise and that consume the random source. *)
Definition M {T} `{Framework T} (A : Type) : Type := rng -> res (A * rng).

Definition ret {T} `{Framework T} {A : Type} (a : A) : M A :=
  fun g => Ok (a, g).

Definition raise {T} `{Framework T} {A : Type} (e : exn) : M A :=
  fun _ => Raise e.

Definition bind {T} `{Framework T} {A B : Type} (c : M A) (k : A -> M B) : M B :=
  fun g =>
    match c g with
    | Ok (a, g') => k a g'
    | Raise e => Raise e
    end.

Definition lift {T} `{Framework T} {A : Type} (c : res A) : M A :=
  fun g =>
    match c with
    | Ok a => Ok (a, g)
    | Raise e => Raise e
    end.

Notation "x <- c ;; k" := (bind c (fun x => k))
  (at level 61, c at next level, right associativity).

(** [for i in range(n): acc = body(i, acc)] *)
Definition for_range {T} `{Framework T} {A : Type}
    (n : nat) (body : nat -> A -> M A) (init : A) : M A :=
  fold_left (fun acc i => a <- acc ;; body i a) (seq 0 n) (ret init).

(** ** The tensor primitives the module calls *)

Section Torch.
Context {T : Type} `{FW : Framework T}.

Definition tmap (f : T -> T) (x : tensor T) : tensor T :=
  mkTensor (shape x) (fun idx => f (item x idx)).

(** [torch.exp(x)] *)
Definition torch_exp (x : tensor T) : tensor T := tmap exp x.

(** [c * x] for a Python number [c] *)
Definition scalar_mul (c : T) (x : tensor T) : tensor T := tmap (mul c) x.

(** [a + b], [a * b]: elementwise after broadcasting, which fails when
    the shapes are not compatible. *)
Definition broadcast2 (f : T -> T -> T) (a b : tensor T) : res (tensor T) :=
  match broadcast_shapes (shape a) (shape b) with
  | Some s =>
      Ok (mkTensor s (fun idx =>
            f (item a (expand_index (shape a) idx))
              (item b (expand_index (shape b) idx))))
  | None =>
      Raise (RuntimeError "The size of tensor a must match the size of tensor b")
  end.

Definition tensor_add : tensor T -> tensor T -> res (tensor T) := broadcast2 add.
Definition tensor_mul : tensor T -> tensor T -> res (tensor T) := broadcast2 mul.

(** [torch.randn_like(x)] *)
Definition randn_like (x : tensor T) : M (tensor T) :=
  fun g => let (f, g') := randn (shape x) g in Ok (mkTensor (shape x) f, g').

(** [torch.zeros(sizes)], the sizes given one by one *)
Definition torch_zeros (sizes : list nat) : tensor T :=
  mkTensor sizes (fun _ => zero).

(** [x.unsqueeze(0)] *)
Definition unsqueeze0 (x : tensor T) : tensor T :=
  mkTensor (1 :: shape x) (fun idx => item x (tl idx)).

(** [x.squeeze(0)]: drops the first axis when its size is 1. *)
Definition squeeze0 (x : tensor T) : tensor T :=
  match shape x with
  | 1 :: s => mkTensor s (fun idx => item x (0 :: idx))
  | _ => x
  end.

(** The decimal numeral of a size, as it is printed in a message. *)
Definition str_of_nat (n : nat) : string :=
  NilEmpty.string_of_uint (Nat.to_uint n).

(** The IndexError of an index expression longer than the rank. *)
Definition too_many_indices (x : tensor T) : exn :=
  IndexError (String.append "too many indices for tensor of dimension "
                            (str_of_nat (rank x))).

(** [x[:, ..., :k]] and [x[:, ..., k:]] with [ax] full slices before the
    last one: the slice is taken on axis [ax], and an index expression
    longer than the rank is an IndexError. *)
Definition getitem_upto (ax k : nat) (x : tensor T) : res (tensor T) :=
  if ax <? rank x
  then Ok (mkTensor (map_nth (fun n => Nat.min k n) ax (shape x)) (item x))
  else Raise (too_many_indices x).

Definition getitem_from (ax k : nat) (x : tensor T) : res (tensor T) :=
  if ax <? rank x
  then Ok (mkTensor (map_nth (fun n => n - k) ax (shape x))
                    (fun idx => item x (map_nth (fun i => i + k) ax idx)))
  else Raise (too_many_indices x).

(** [torch.cat(ts, dim=-1)].  A tensor of rank 0 cannot be concatenated;
    tensors of shape [0] are skipped (the framework's rule for empty
    1-D tensors); the others must agree on every axis but the last. *)
Fixpoint cat_item (ts : list (tensor T)) (idx : list nat) : T :=
  match ts with
  | [] => zero
  | t :: ts' =>
      let j := last idx 0 in
      if j <? last_dim t then item t idx
      else cat_item ts' (set_last idx (j - last_dim t))
  end.

Definition cat_last (ts : list (tensor T)) : res (tensor T) :=
  if existsb (fun t => rank t =? 0) ts
  then Raise (RuntimeError "zero-dimensional tensor cannot be concatenated")
  else
    match filter (fun t => negb (shape_eqb (shape t) [0])) ts with
    | [] =>
        match ts with
        | [] => Raise (RuntimeError "torch.cat(): expected a non-empty list of Tensors")
        | _ :: _ => Ok (mkTensor [0] (fun _ => zero))
        end
    | t :: ts' =>
        let lead := removelast (shape t) in
        if negb (forallb (fun u => rank u =? rank t) ts')
        then Raise (RuntimeError "Tensors must have same number of dimensions")
        else if forallb (fun u => shape_eqb (removelast (shape u)) lead) ts'
        then Ok (mkTensor (lead ++ [list_sum (map last_dim (t :: ts'))])
                          (cat_item (t :: ts')))
        else Raise (RuntimeError "Sizes of tensors must match except in dimension")
    end.

(** [F.linear(x, w, b)]: [x @ w.T + b] on the last axis, for a weight of
    shape [o, i] and a bias of shape [o], the only parameter shapes the
    code creates; the input must have rank at least 1 and last size [i]. *)
Definition dot (i : nat) (x : nat -> T) (w : nat -> T) : T :=
  fold_left (fun acc k => add acc (mul (x k) (w k))) (seq 0 i) zero.

Definition F_linear (x w b : tensor T) : res (tensor T) :=
  match shape w with
  | [o; i] =>
      if negb (shape_eqb (shape b) [o])
      then Raise (RuntimeError "The size of tensor a must match the size of tensor b")
      else if (rank x =? 0) || negb (last_dim x =? i)
      then Raise (RuntimeError "mat1 and mat2 shapes cannot be multiplied")
      else Ok (mkTensor (removelast (shape x) ++ [o])
                 (fun idx =>
                    let j := last idx 0 in
                    add (dot i (fun k => item x (set_last idx k))
                               (fun k => item w [j; k]))
                        (item b [j])))
  | _ => Raise (RuntimeError "mat1 and mat2 shapes cannot be multiplied")
  end.

(** [module(x)] *)
Definition module_forward (m : module T) (x : tensor T) : res (tensor T) :=
  match m with
  | Linear _ _ w b => F_linear x w b
  | LayerNorm n => LayerNorm_forward n x
  | ReLU => Ok (tmap relu x)
  | Tanh => Ok (tmap tanh x)
  end.

(** [nn.Sequential]: the layers in order, each applied to the output of
    the one before. *)
Definition Sequential : Type := list (module T).

Definition Sequential_forward (ms : Sequential) (x : tensor T) : res (tensor T) :=
  fold_left (fun acc m => y <~ acc ;; module_forward m y) ms (Ok x).

(** [nn.Linear(i, o)] *)
Definition nn_Linear (i o : nat) : M (module T) :=
  fun g =>
    match Linear_new i o g with
    | Ok ((w, b), g') => Ok (Linear i o w b, g')
    | Raise e => Raise e
    end.

(** ** The source, function by function *)

Definition _init_layer (m : module T) : M (module T) :=
  match m with
  | Linear i o w b =>
      fun g =>
        let (w', g') := orthogonal_ w sqrt2 g in
        Ok (Linear i o w' (mkTensor (shape b) (fun _ => zero)), g')
  | _ => raise (AttributeError "weight")
  end.

(** Defaults of the keyword arguments of [build_sequential]. *)
Definition default_activation : string := "relu".
Definition default_layer_norm : bool := true.
Definition default_output_activation : bool := false.

Definition build_sequential (num_inputs : nat) (hiddens : list nat)
    (activation : string) (layer_norm output_activation : bool) : M Sequential :=
  let modules : Sequential := [] in
  nonlin <-
    (if String.eqb activation "relu" then ret ReLU
     else if String.eqb activation "tanh" then ret Tanh
     else raise (ValueError
            (String.append "Unknown activation option "
               (String.append activation "!")))) ;;
  _ <- (if 0 <? length hiddens then ret tt else raise AssertionError) ;;
  h0 <- lift (getitem hiddens 0) ;;
  l <- nn_Linear num_inputs h0 ;;
  l <- _init_layer l ;;
  let modules := modules ++ [l] in
  let modules := if layer_norm then modules ++ [LayerNorm h0] else modules in
  modules <-
    for_range (length hiddens - 1)
      (fun i modules =>
         let modules := modules ++ [nonlin] in
         hi <- lift (getitem hiddens i) ;;
         hi1 <- lift (getitem hiddens (i + 1)) ;;
         l <- nn_Linear hi hi1 ;;
         l <- _init_layer l ;;
         let modules := modules ++ [l] in
         ret (if layer_norm then modules ++ [LayerNorm hi1] else modules))
      modules ;;
  ret (if output_activation then modules ++ [nonlin] else modules).

End Torch.

Module VAETaskEncoder.
Section WithFramework.
Context {T : Type} `{FW : Framework T}.

(** The attributes [__init__] may set.  [rnn_hidden_dim] and [rnn] are
    assigned on the recurrent path only, so they can be absent;
    [input_fc] is always assigned, possibly to [None]. *)
Record t : Type := mk {
  use_rnn : bool;
  task_emb_dim : nat;
  layer_norm : bool;
  rnn_hidden_dim : option nat;
  input_fc : option (@Sequential T);
  rnn : option GRU;
  output_fc : @Sequential T
}.

Definition __init__ (obs_dim act_dim rew_dim task_embedding_dim : nat)
    (hiddens : list nat) (activation : string) (layer_norm : bool) : M t :=
  let use_rnn := false in
  let input_dim := obs_dim + act_dim + rew_dim in
  if use_rnn then
    (* hiddens[0] is read again below; once read it is h0 *)
    h0 <- lift (getitem hiddens 0) ;;
    if 1 <? length hiddens then
      (* at least 2 hidden layers: 1 hidden layer before RNN, rest after *)
      input_fc <- build_sequential input_dim [h0] activation layer_norm true ;;
      let rnn := mkGRU h0 h0 1 in
      output_fc <- build_sequential h0 (skipn 1 hiddens ++ [task_embedding_dim * 2])
                     activation layer_norm default_output_activation ;;
      ret (mk use_rnn task_embedding_dim layer_norm (Some h0)
              (Some input_fc) (Some rnn) output_fc)
    else
      (* only 1 hidden layer: first RNN before rest *)
      let rnn := mkGRU input_dim h0 1 in
      output_fc <- build_sequential h0 (hiddens ++ [task_embedding_dim * 2])
                     activation default_layer_norm default_output_activation ;;
      ret (mk use_rnn task_embedding_dim layer_norm (Some h0)
              None (Some rnn) output_fc)
  else
    h0 <- lift (getitem hiddens 0) ;;
    input_fc <- build_sequential input_dim [h0] activation default_layer_norm true ;;
    h0 <- lift (getitem hiddens 0) ;;
    output_fc <- build_sequential h0 (skipn 1 hiddens ++ [task_embedding_dim * 2])
                   activation default_layer_norm true ;;
    ret (mk use_rnn task_embedding_dim layer_norm None
            (Some input_fc) None output_fc).

Definition init_hidden (self : t) (batch_size : nat) : res (tensor T) :=
  match rnn_hidden_dim self with
  | Some d => Ok (torch_zeros [batch_size; d])
  | None => Raise (AttributeError "rnn_hidden_dim")
  end.

Definition reparameterise (self : t) (mu log_var : tensor T) : M (tensor T) :=
  let std := torch_exp (scalar_mul half log_var) in
  eps <- randn_like std ;;
  noise <- lift (tensor_mul eps std) ;;
  sample <- lift (tensor_add mu noise) ;;
  ret sample.

(** The results of [forward]: [(task_emb, mu, log_var, z)], with
    [final_hiddens] added on the recurrent path. *)
Record outputs : Type := mkOutputs {
  task_emb : tensor T;
  mu : tensor T;
  log_var : tensor T;
  z : tensor T;
  final_hiddens : option (tensor T)
}.

Definition forward (self : t) (obs act rew : tensor T)
    (hiddens : option (tensor T)) : M outputs :=
  x <- lift (cat_last [obs; act; rew]) ;;
  x <- match input_fc self with
       | Some fc => lift (Sequential_forward fc x)
       | None => ret x
       end ;;
  (* reshape to (seq_length, N, ...) *)
  r <- (if length (shape x) <? 3 then
          _ <- lift (getitem (shape x) 0) ;;            (* batch_size *)
          ret (unsqueeze0 x, Some 1, option_map unsqueeze0 hiddens)
        else ret (x, None, hiddens)) ;;
  let '(x, seq_length, hiddens) := r in
  r <- (if use_rnn self then
          match rnn self with
          | Some gru =>
              y <- lift (GRU_forward gru x hiddens) ;;
              ret (fst y, Some (snd y))
          | None => raise (AttributeError "rnn")
          end
        else ret (x, None)) ;;
  let '(output, final_hiddens) := r in
  (* if reshaped before, unflatten again *)
  let '(output, final_hiddens) :=
    match seq_length with
    | Some n =>
        if n =? 1
        then (squeeze0 output,
              if use_rnn self then option_map squeeze0 final_hiddens
              else final_hiddens)
        else (output, final_hiddens)
    | None => (output, final_hiddens)
    end in
  x <- lift (Sequential_forward (output_fc self) output) ;;
  (* get mu and log_var from output *)
  r <- (if 2 <? rank x then
          mu <- lift (getitem_upto 2 (task_emb_dim self) x) ;;
          log_var <- lift (getitem_from 2 (task_emb_dim self) x) ;;
          ret (mu, log_var)
        else
          mu <- lift (getitem_upto 1 (task_emb_dim self) x) ;;
          log_var <- lift (getitem_from 1 (task_emb_dim self) x) ;;
          ret (mu, log_var)) ;;
  let '(mu, log_var) := r in
  (* task embedding as concat of mu and log var *)
  task_emb <- lift (cat_last [mu; log_var]) ;;
  (* get sample from latent space *)
  z <- reparameterise self mu log_var ;;
  ret (mkOutputs task_emb mu log_var z final_hiddens).

(** The raw output of the output stack inside [forward], before it is
    split: the statements of the non-recurrent path up to
    [x = self.output_fc(output)]. *)
Definition raw_output (self : t) (obs act rew : tensor T) : res (tensor T) :=
  x <~ cat_last [obs; act; rew] ;;
  x <~ match input_fc self with
       | Some fc => Sequential_forward fc x
       | None => Ok x
       end ;;
  output <~ (if length (shape x) <? 3 then
               _ <~ getitem (shape x) 0 ;;
               Ok (squeeze0 (unsqueeze0 x))
             else Ok x) ;;
  Sequential_forward (output_fc self) output.

End WithFramework.
Arguments t T : clear implicits.
Arguments outputs T : clear implicits.
End VAETaskEncoder.

Module TaskDecoder.
Section WithFramework.
Context {T : Type} `{FW : Framework T}.

Record t : Type := mk {
  obs_dim : nat;
  rew_dim : nat;
  decoder : @Sequential T
}.

Definition __init__ (task_embedding_dim obs_dim act_dim rew_dim : nat)
    (activation : string) : M t :=
  decoder <- build_sequential (task_embedding_dim + obs_dim + act_dim)
               [obs_dim + rew_dim] activation
               default_layer_norm default_output_activation ;;
  ret (mk obs_dim rew_dim decoder).

(** [out = self.decoder(torch.cat([task_emb, obs, act], dim=-1))] *)
Definition raw_output (self : t) (task_emb obs act : tensor T) : res (tensor T) :=
  x <~ cat_last [task_emb; obs; act] ;;
  Sequential_forward (decoder self) x.

Definition forward (self : t) (task_emb obs act : tensor T)
    : res (tensor T * tensor T) :=
  x <~ cat_last [task_emb; obs; act] ;;
  out <~ Sequential_forward (decoder self) x ;;
  if rank out =? 2 then
    obs_pred <~ getitem_upto 1 (obs_dim self) out ;;
    rew_pred <~ getitem_from 1 (obs_dim self) out ;;
    Ok (obs_pred, rew_pred)
  else if rank out =? 3 then
    obs_pred <~ getitem_upto 2 (obs_dim self) out ;;
    rew_pred <~ getitem_from 2 (obs_dim self) out ;;
    Ok (obs_pred, rew_pred)
  else
    (* neither branch assigned obs_pred *)
    Raise (UnboundLocalError "obs_pred").

End WithFramework.
Arguments t T : clear implicits.
End TaskDecoder.

Module VAE.
Section WithFramework.
Context {T : Type} `{FW : Framework T}.

Record t : Type := mk {
  encoder : VAETaskEncoder.t T;
  decoder : TaskDecoder.t T
}.

Definition __init__ (task_emb_dim obs_dim act_dim rew_dim n_agents : nat)
    (hiddens : list nat) (activation : string) (layer_norm : bool) : M t :=
  encoder <- VAETaskEncoder.__init__ obs_dim act_dim rew_dim task_emb_dim
               hiddens activation layer_norm ;;
  decoder <- TaskDecoder.__init__ task_emb_dim obs_dim act_dim n_agents
               activation ;;
  ret (mk encoder decoder).

End WithFramework.
Arguments t T : clear implicits.
End VAE.

(** ** Predicates used to state the properties *)

Section Invariants.
Context {T : Type} `{FW : Framework T}.

Definition is_nonlin (m : module T) : Prop := m = ReLU \/ m = Tanh.

(** The activation test at the head of [build_sequential]. *)
Definition pick_nonlin (activation : string) : option (module T) :=
  if String.eqb activation "relu" then Some ReLU
  else if String.eqb activation "tanh" then Some Tanh
  else None.

(** The stack under construction, as the statements of
    [build_sequential] grow it: a first linear layer from the input
    width, then one block (nonlinearity, linear layer) per further
    width, each linear layer followed by its LayerNorm when [ln] is
    set.  The last index is the width reached so far. *)
Inductive built (ln : bool) (nonlin : module T) (i : nat)
    : @Sequential T -> nat -> Prop :=
| built_first o w b :
    shape w = [o; i] -> shape b = [o] ->
    built ln nonlin i
      (if ln then ([] ++ [Linear i o w b]) ++ [LayerNorm o]
       else [] ++ [Linear i o w b]) o
| built_next ms h o w b :
    built ln nonlin i ms h ->
    shape w = [o; h] -> shape b = [o] ->
    built ln nonlin i
      (if ln then ((ms ++ [nonlin]) ++ [Linear h o w b]) ++ [LayerNorm o]
       else (ms ++ [nonlin]) ++ [Linear h o w b]) o.

(** Every linear layer of a stack is directly followed by a LayerNorm
    of its output width. *)
Fixpoint normalised (ms : @Sequential T) : bool :=
  match ms with
  | [] => true
  | Linear _ o _ _ :: rest =>
      match rest with
      | LayerNorm n :: _ => n =? o
      | _ => false
      end && normalised rest
  | _ :: rest => normalised rest
  end.

(** A stack maps inputs of last size [i] to outputs of last size [o],
    keeping the leading sizes. *)
Definition maps_width (ms : @Sequential T) (i o : nat) : Prop :=
  forall lead x, shape x = lead ++ [i] ->
    exists y, Sequential_forward ms x = Ok y /\ shape y = lead ++ [o].

(** The statements of [VAETaskEncoder.forward] after the output stack,
    on the non-recurrent path: split, concatenate, sample, return. *)
Definition split_and_sample (self : VAETaskEncoder.t T) (x : tensor T)
    : M (VAETaskEncoder.outputs T) :=
  r <- (if 2 <? rank x then
          mu <- lift (getitem_upto 2 (VAETaskEncoder.task_emb_dim self) x) ;;
          log_var <- lift (getitem_from 2 (VAETaskEncoder.task_emb_dim self) x) ;;
          ret (mu, log_var)
        else
          mu <- lift (getitem_upto 1 (VAETaskEncoder.task_emb_dim self) x) ;;
          log_var <- lift (getitem_from 1 (VAETaskEncoder.task_emb_dim self) x) ;;
          ret (mu, log_var)) ;;
  let '(mu, log_var) := r in
  task_emb <- lift (cat_last [mu; log_var]) ;;
  z <- VAETaskEncoder.reparameterise self mu log_var ;;
  ret (VAETaskEncoder.mkOutputs task_emb mu log_var z None).

End Invariants.

(** ** The layout of a stack and the state of its parameters *)

(** A layer without its parameters. *)
Inductive layer_kind : Type :=
| KLinear (i o : nat)
| KLayerNorm (n : nat)
| KReLU
| KTanh.

Section Layout.
Context {T : Type} `{FW : Framework T}.

Definition kind_of (m : module T) : layer_kind :=
  match m with
  | Linear i o _ _ => KLinear i o
  | LayerNorm n => KLayerNorm n
  | ReLU => KReLU
  | Tanh => KTanh
  end.

Definition activation_kind (activation : string) : option layer_kind :=
  if String.eqb activation "relu" then Some KReLU
  else if String.eqb activation "tanh" then Some KTanh
  else None.

Definition norm_kinds (ln : bool) (n : nat) : list layer_kind :=
  if ln then [KLayerNorm n] else [].

(** One block per further width: the nonlinearity, the linear layer from
    the width before, its LayerNorm when asked for. *)
Fixpoint blocks (nonlin : layer_kind) (ln : bool) (prev : nat) (hs : list nat)
    : list layer_kind :=
  match hs with
  | [] => []
  | h :: hs' => nonlin :: KLinear prev h :: norm_kinds ln h ++ blocks nonlin ln h hs'
  end.

(** The stack for a list of widths, by recursion on the list. *)
Definition layout (num_inputs : nat) (hiddens : list nat) (nonlin : layer_kind)
    (ln oa : bool) : list layer_kind :=
  match hiddens with
  | [] => []
  | h0 :: hs =>
      KLinear num_inputs h0 :: norm_kinds ln h0 ++ blocks nonlin ln h0 hs
        ++ (if oa then [nonlin] else [])
  end.

(** A linear layer as [_init_layer] leaves it: the weight is what
    [orthogonal_] with gain [sqrt2] made of the fresh weight, of shape
    [o, i]; the bias has shape [o] and is zero everywhere. *)
Definition initialised (m : module T) : Prop :=
  match m with
  | Linear i o w b =>
      (exists w0 g0, shape w0 = [o; i] /\ w = fst (orthogonal_ w0 sqrt2 g0)) /\
      shape w = [o; i] /\ shape b = [o] /\ forall idx, item b idx = zero
  | _ => True
  end.

End Layout.

(** ** A symbolic instance, to run the definitions

    Elements are terms over the scalar operations; an element of an input
    tensor is named by the tensor and its index, an element taken from the
    random source by the number of the draw and its index.  LayerNorm
    marks each element of a row it normalises. *)

Module Symbolic.

Inductive sym : Type :=
| SZero
| SHalf
| SSqrt2
| SAdd (a b : sym)
| SMul (a b : sym)
| SExp (a : sym)
| SRelu (a : sym)
| STanh (a : sym)
| SNorm (a : sym)
| SIn (name : string) (idx : list nat)
| SDraw (draw : nat) (idx : list nat).

#[export] Instance sym_scalar : Scalar sym := {|
  zero := SZero;
  half := SHalf;
  sqrt2 := SSqrt2;
  add := SAdd;
  mul := SMul;
  exp := SExp;
  relu := SRelu;
  tanh := STanh
|}.

Definition sym_Linear_new (i o : nat) (g : nat)
    : res ((tensor sym * tensor sym) * nat) :=
  Ok ((mkTensor [o; i] (SDraw g), mkTensor [o] (SDraw (S g))), S (S g)).

Definition sym_orthogonal_ (w : tensor sym) (gain : sym) (g : nat)
    : tensor sym * nat :=
  (mkTensor (shape w) (fun idx => SMul gain (SDraw g idx)), S g).

Definition sym_randn (s : list nat) (g : nat) : (list nat -> sym) * nat :=
  (SDraw g, S g).

Definition sym_LayerNorm_forward (n : nat) (x : tensor sym) : res (tensor sym) :=
  if (rank x =? 0) || negb (last_dim x =? n)
  then Raise (RuntimeError "The size of tensor a must match the size of tensor b")
  else Ok (mkTensor (shape x) (fun idx => SNorm (item x idx))).

Definition sym_GRU_forward (gru : GRU) (x : tensor sym) (h0 : option (tensor sym))
    : res (tensor sym * tensor sym) :=
  Raise (RuntimeError "GRU is not part of the symbolic instance").

#[export] Instance sym_framework : @Framework sym sym_scalar.
Proof.
  refine {| rng := nat;
            Linear_new := sym_Linear_new;
            orthogonal_ := sym_orthogonal_;
            randn := sym_randn;
            LayerNorm_forward := sym_LayerNorm_forward;
            GRU_forward := sym_GRU_forward |}.
  - intros i o g _ _. now eexists _, _, _.
  - unfold sym_Linear_new. intros i o g w b g' E. inversion E. now subst.
  - reflexivity.
  - intros n x Hx Hn. unfold sym_LayerNorm_forward, rank.
    destruct (shape x) eqn:E; [congruence|].
    simpl. rewrite Hn, Nat.eqb_refl. simpl. now eexists.
Defined.

(** A named input tensor of a given shape. *)
Definition input (name : string) (sh : list nat) : tensor sym :=
  mkTensor sh (SIn name).

(** The state of the random source after [n] draws. *)
Definition seed (n : nat) : @rng sym sym_scalar sym_framework := n.

(** An encoder instance with no stacks, for the operations that do not
    read them. *)
Definition self0 : VAETaskEncoder.t sym :=
  VAETaskEncoder.mk false 2 true None None None [].

End Symbolic.

(** ** The training loop of scripts/.../4.generate_tree_train_load_models.py

    The loop's control: the counters of [status], the two intervals, the
    stopping test and the record of the best evaluation.  The calls to
    the RL algorithm and to the evaluation are inputs (what they return,
    by the status at the call); what is written to the log, the
    checkpoint files and the logger is recorded as an event, the content
    of a log row (timing, formatting) and failures of the file system
    being outside the model.  Counters and intervals are Python integers;
    returns and their means are values of a type [V] with the
    comparisons the script applies to them. *)

Module TrainScript.

Inductive script_exn : Type :=
| ZeroDivisionError.

Inductive result (A : Type) : Type :=
| Done (a : A)
| Crash (e : script_exn).

Arguments Done {A} a.
Arguments Crash {A} e.

Definition and_then {A B : Type} (c : result A) (k : A -> result B) : result B :=
  match c with
  | Done a => k a
  | Crash e => Crash e
  end.

(** [a % b] on Python integers: the sign of the divisor, an error on 0. *)
Definition py_mod (a b : Z) : result Z :=
  if Z.eqb b 0 then Crash ZeroDivisionError else Done (Z.modulo a b).

(** [status], as restored from status.json or started at zero. *)
Record status : Type := mkStatus {
  i : Z;
  num_episodes : Z;
  num_frames : Z
}.

Definition fresh_status : status := mkStatus 0 0 0.

(** The command-line values the loop reads. *)
Record args : Type := mkArgs {
  frames : Z;
  log_interval : Z;
  save_interval : Z
}.

(** The entries of [algo.update_parameters()]'s result the counters use. *)
Record update_logs : Type := mkLogs {
  logs_num_frames : Z;
  logs_episodes_done : Z
}.

Inductive event : Type :=
| LogRow (st : status)            (* logger.info(...), csv_writer.writerow(data) *)
| SaveCheckpoint (st : status)    (* vocab.save(), json.dump(status), save_model *)
| SaveBest (st : status)          (* save_model(..., model + '_best') *)
| NotBest (st : status).          (* "not the best model; not saved" *)

Definition is_checkpoint (e : event) : bool :=
  match e with
  | SaveCheckpoint _ => true
  | _ => false
  end.

Definition is_save_event (e : event) : bool :=
  match e with
  | LogRow _ => false
  | _ => true
  end.

Section Loop.
Variable V : Type.
Variable gt : V -> V -> bool.                 (* x > y *)
Variable eqv : V -> V -> bool.                (* x == y *)
Variable positive : V -> bool.                (* r > 0 *)
Variable mean_int : list Z -> V.              (* np.mean of a list of 0/1 *)
Variable mean_val : list V -> V.              (* np.mean of the returns *)
Variable update_parameters : status -> update_logs.
Variable batch_evaluate : status -> list V.   (* logs["return_per_episode"] *)

(** The record of the best evaluation:
    [(best_success_rate, best_mean_return)], and whether this evaluation
    is saved as the best model. *)
Definition success_rate_of (return_per_episode : list V) : V :=
  mean_int (map (fun r => if positive r then 1%Z else 0%Z) return_per_episode).

Definition update_best (best : V * V) (return_per_episode : list V)
    : (V * V) * bool :=
  let '(best_success_rate, best_mean_return) := best in
  let mean_return := mean_val return_per_episode in
  let success_rate := success_rate_of return_per_episode in
  if gt success_rate best_success_rate then
    ((success_rate, best_mean_return), true)
  else if eqv success_rate best_success_rate && gt mean_return best_mean_return then
    ((best_success_rate, mean_return), true)
  else
    ((best_success_rate, best_mean_return), false).

Record loop_state : Type := mkLoop {
  st : status;
  best : V * V;
  trace : list event
}.

(** The number of checkpoints written so far. *)
Definition checkpoints (s : loop_state) : Z :=
  Z.of_nat (length (filter is_checkpoint (trace s))).

(** One pass through the body of the [while]. *)
Definition iteration (a : args) (s : loop_state) : result loop_state :=
  let logs := update_parameters (st s) in
  let status :=
    mkStatus (i (st s) + 1)
             (num_episodes (st s) + logs_episodes_done logs)
             (num_frames (st s) + logs_num_frames logs) in
  (* Print logs *)
  and_then (py_mod (i status) (log_interval a)) (fun m =>
  let trace := if Z.eqb m 0 then trace s ++ [LogRow status] else trace s in
  (* Save obss preprocessor vocabulary and model *)
  and_then
    (if Z.gtb (save_interval a) 0
     then and_then (py_mod (i status) (save_interval a)) (fun m => Done (Z.eqb m 0))
     else Done false) (fun save =>
  if save then
    let trace := trace ++ [SaveCheckpoint status] in
    let '(best', save_model) := update_best (best s) (batch_evaluate status) in
    Done (mkLoop status best'
            (trace ++ [if save_model then SaveBest status else NotBest status]))
  else Done (mkLoop status (best s) trace))).

(** [while status['num_frames'] < args.frames: ...], for at most [fuel]
    passes; [None] when the fuel ran out before the test failed. *)
Fixpoint train (fuel : nat) (a : args) (s : loop_state)
    : result (option loop_state) :=
  if Z.ltb (num_frames (st s)) (frames a) then
    match fuel with
    | O => Done None
    | S fuel' => and_then (iteration a s) (train fuel' a)
    end
  else Done (Some s).

End Loop.

(** An instance over integers, to run the loop: returns in hundredths,
    means by integer division, 64 frames and one episode per update, and
    an evaluation whose returns depend on the update number. *)
Definition z_mean (l : list Z) : Z :=
  Z.div (fold_right Z.add 0%Z l) (Z.of_nat (length l)).

Definition z_mean_int (l : list Z) : Z := z_mean (map (Z.mul 100) l).

Definition z_update_parameters (s : status) : update_logs := mkLogs 64 1.

Definition z_batch_evaluate (s : status) : list Z := [i s; 0%Z; 50%Z].

Definition z_iteration : args -> loop_state Z -> result (loop_state Z) :=
  iteration Z.gtb Z.eqb (Z.ltb 0) z_mean_int z_mean
    z_update_parameters z_batch_evaluate.

Definition z_train : nat -> args -> loop_state Z -> result (option (loop_state Z)) :=
  train Z.gtb Z.eqb (Z.ltb 0) z_mean_int z_mean
    z_update_parameters z_batch_evaluate.

Definition z_start : loop_state Z := mkLoop fresh_status (0%Z, 0%Z) [].

End TrainScript.

(** * Properties *)

(** ** Lists, shapes and indices *)

Lemma Forall2_rev (A B : Type) (R : A -> B -> Prop) (l : list A) (l' : list B) :
  Forall2 R l l' -> Forall2 R (rev l) (rev l').
Proof.
  induction 1 as [|a b l l' Hab _ IH]; simpl.
  - constructor.
  - apply Forall2_app; [exact IH | repeat constructor; exact Hab].
Qed.

Lemma map_nth_last (f : nat -> nat) (l : list nat) (x : nat) :
  map_nth f (length l) (l ++ [x]) = l ++ [f x].
Proof.
  induction l as [|a l IH]; simpl; [reflexivity | now rewrite IH].
Qed.

Lemma set_last_snoc (l : list nat) (x j : nat) :
  set_last (l ++ [x]) j = l ++ [j].
Proof. unfold set_last. now rewrite removelast_last. Qed.

Lemma in_range_snoc (lead : list nat) (w : nat) (idx : list nat) :
  in_range (lead ++ [w]) idx ->
  exists i j, idx = i ++ [j] /\ length i = length lead /\ j < w /\ in_range lead i.
Proof.
  unfold in_range. intros H.
  apply Forall2_app_inv_r in H as (i & l2 & Hi & Hj & ->).
  inversion Hj as [|j y l2' l' Hlt Hnil]; subst.
  inversion Hnil; subst.
  exists i, j. repeat split; trivial.
  now apply Forall2_length in Hi.
Qed.

Lemma shape_eqb_refl (s : list nat) : shape_eqb s s = true.
Proof. unfold shape_eqb. now destruct (list_eq_dec Nat.eq_dec s s). Qed.

Lemma shape_eqb_eq (a b : list nat) : shape_eqb a b = true <-> a = b.
Proof.
  unfold shape_eqb. destruct (list_eq_dec Nat.eq_dec a b); split; congruence.
Qed.

Lemma shape_eqb_snoc_pos (lead : list nat) (w : nat) :
  0 < w -> shape_eqb (lead ++ [w]) [0] = false.
Proof.
  intros Hw. destruct (shape_eqb (lead ++ [w]) [0]) eqn:E; trivial.
  apply shape_eqb_eq in E.
  assert (L : last (lead ++ [w]) 0 = last [0] 0) by now rewrite E.
  rewrite last_last in L. simpl in L. lia.
Qed.

Lemma snoc_length (lead : list nat) (w : nat) :
  length (lead ++ [w]) = S (length lead).
Proof. rewrite length_app. simpl. lia. Qed.

Lemma broadcast_rev_same (s : list nat) : broadcast_rev s s = Some s.
Proof.
  induction s as [|x s IH]; simpl; [reflexivity|].
  now rewrite IH, Nat.eqb_refl.
Qed.

Lemma broadcast_shapes_same (s : list nat) : broadcast_shapes s s = Some s.
Proof.
  unfold broadcast_shapes. rewrite broadcast_rev_same. simpl.
  now rewrite rev_involutive.
Qed.

Lemma expand_rev_in_range (s idx : list nat) :
  Forall2 lt idx s -> expand_rev s idx = idx.
Proof.
  induction 1 as [|i d idx s Hlt _ IH]; simpl; [reflexivity|].
  rewrite IH. destruct (Nat.eqb_spec d 1); [f_equal; lia | reflexivity].
Qed.

Lemma expand_index_in_range (s idx : list nat) :
  in_range s idx -> expand_index s idx = idx.
Proof.
  intros H. unfold expand_index.
  rewrite expand_rev_in_range by now apply Forall2_rev.
  apply rev_involutive.
Qed.

(** ** The effect layers *)

Section Effects.
Context {T : Type} `{FW : Framework T}.

Lemma bind_Ok (A B : Type) (c : M A) (k : A -> M B) g b g' :
  bind c k g = Ok (b, g') ->
  exists a g1, c g = Ok (a, g1) /\ k a g1 = Ok (b, g').
Proof.
  unfold bind. destruct (c g) as [[a g1]|e]; [|discriminate].
  intros E. now exists a, g1.
Qed.

Lemma bind_step (A B : Type) (c : M A) (k : A -> M B) g a g1 :
  c g = Ok (a, g1) -> bind c k g = k a g1.
Proof. unfold bind. now intros ->. Qed.

Lemma bind_Raise (A B : Type) (c : M A) (k : A -> M B) g e :
  c g = Raise e -> bind c k g = Raise e.
Proof. unfold bind. now intros ->. Qed.

Lemma bind_ret (A B : Type) (a : A) (k : A -> M B) : bind (ret a) k = k a.
Proof. reflexivity. Qed.

Lemma bind_lift_Ok (A B : Type) (a : A) (k : A -> M B) :
  bind (lift (Ok a)) k = k a.
Proof. reflexivity. Qed.

Lemma lift_Ok (A : Type) (c : res A) g a g' :
  lift c g = Ok (a, g') -> c = Ok a /\ g' = g.
Proof.
  unfold lift. destruct c; [|discriminate].
  intros E. inversion E. now subst.
Qed.

Lemma for_range_0 (A : Type) (body : nat -> A -> M A) (init : A) :
  for_range 0 body init = ret init.
Proof. reflexivity. Qed.

Lemma for_range_S (A : Type) (n : nat) (body : nat -> A -> M A) (init : A) :
  for_range (S n) body init = (a <- for_range n body init ;; body n a).
Proof. unfold for_range. now rewrite seq_S, fold_left_app. Qed.

(** A loop invariant carried through a [for] over [range(n)]. *)
Lemma for_range_inv (A : Type) (I : nat -> A -> Prop)
    (n : nat) (body : nat -> A -> M A) (init : A) :
  I 0 init ->
  (forall i a g a' g', i < n -> I i a -> body i a g = Ok (a', g') -> I (S i) a') ->
  forall g a g', for_range n body init g = Ok (a, g') -> I n a.
Proof.
  intros H0 Hstep. induction n as [|n IH]; intros g a g' E.
  - unfold for_range in E. simpl in E. inversion E. now subst.
  - rewrite for_range_S in E. apply bind_Ok in E as (a1 & g1 & E1 & E2).
    eapply Hstep; [| |exact E2]; [lia|].
    eapply IH; [|exact E1]. intros; eapply Hstep; eauto.
Qed.

(** The loop completes when every iteration does under the invariant. *)
Lemma for_range_total (A : Type) (I : nat -> A -> Prop)
    (n : nat) (body : nat -> A -> M A) (init : A) :
  I 0 init ->
  (forall i a g, i < n -> I i a ->
     exists a' g', body i a g = Ok (a', g') /\ I (S i) a') ->
  forall g, exists a g', for_range n body init g = Ok (a, g') /\ I n a.
Proof.
  intros H0 Hstep. induction n as [|n IH]; intros g.
  - exists init, g. now split.
  - destruct IH with (g := g) as (a1 & g1 & E1 & I1).
    { intros; apply Hstep; trivial; lia. }
    destruct (Hstep n a1 g1) as (a' & g' & E2 & I2); [lia | exact I1 |].
    exists a', g'. split; [|exact I2].
    rewrite for_range_S. erewrite bind_step; [exact E2 | exact E1].
Qed.

End Effects.

(** ** [build_sequential] *)

Section Builder.
Context {T : Type} `{FW : Framework T}.



Lemma new_layer_inv (i o : nat) g l g1 l' g' :
  nn_Linear i o g = Ok (l, g1) -> _init_layer l g1 = Ok (l', g') ->
  exists w b, l' = Linear i o w b /\ shape w = [o; i] /\ shape b = [o].
Proof.
  unfold nn_Linear. destruct (Linear_new i o g) as [[[w b] g2]|e] eqn:E; [|discriminate].
  intros E1. inversion E1; subst. simpl.
  destruct (Linear_new_shape _ _ _ E) as [Hw Hb].
  pose proof (orthogonal_shape w sqrt2 g1) as Ho.
  destruct (orthogonal_ w sqrt2 g1) as [w' g3]. simpl in Ho.
  intros E2. inversion E2; subst.
  exists w', (mkTensor (shape b) (fun _ => zero)). simpl. repeat split; congruence.
Qed.

Lemma new_layer_total (i o : nat) g :
  0 < i -> 0 < o ->
  exists l g1 l' g', nn_Linear i o g = Ok (l, g1) /\ _init_layer l g1 = Ok (l', g').
Proof.
  intros Hi Ho. destruct (Linear_new_ok g Hi Ho) as (w & b & g1 & E).
  unfold nn_Linear. rewrite E.
  exists (Linear i o w b), g1. simpl.
  destruct (orthogonal_ w sqrt2 g1) as [w' g2].
  now eexists _, _.
Qed.

Lemma nth_pred_last (l : list nat) :
  nth (length l - 1) l 0 = last l 0.
Proof.
  induction l as [|a [|b l] IH]; try reflexivity.
  change (last (a :: b :: l) 0) with (last (b :: l) 0). rewrite <- IH.
  simpl. now rewrite Nat.sub_0_r.
Qed.

Lemma getitem_Ok (l : list nat) (i x : nat) :
  getitem l i = Ok x -> i < length l /\ nth i l 0 = x.
Proof.
  unfold getitem. destruct (nth_error l i) eqn:E; [|discriminate].
  intros E1. inversion E1; subst. split.
  - apply nth_error_Some. congruence.
  - now apply nth_error_nth.
Qed.

Lemma getitem_lt (l : list nat) (i : nat) :
  i < length l -> getitem l i = Ok (nth i l 0).
Proof.
  intros Hi. unfold getitem.
  now rewrite (nth_error_nth' l 0 Hi).
Qed.

Lemma pick_nonlin_is_nonlin activation (m : module T) :
  pick_nonlin activation = Some m -> is_nonlin m.
Proof.
  unfold pick_nonlin, is_nonlin.
  destruct (String.eqb activation "relu"); [intros [= <-]; now left|].
  destruct (String.eqb activation "tanh"); [intros [= <-]; now right|discriminate].
Qed.

(** What a completed [build_sequential] returns. *)
Lemma build_sequential_inv num_inputs hiddens activation ln oa g ms g' :
  build_sequential num_inputs hiddens activation ln oa g = Ok (ms, g') ->
  exists nonlin body,
    pick_nonlin activation = Some nonlin /\ hiddens <> [] /\
    built ln nonlin num_inputs body (last hiddens 0) /\
    ms = if oa then body ++ [nonlin] else body.
Proof.
  unfold build_sequential, pick_nonlin. intros E.
  apply bind_Ok in E as (nonlin & g1 & En & E).
  assert (Hn : (if String.eqb activation "relu" then Some ReLU
                else if String.eqb activation "tanh" then Some Tanh
                else None) = Some nonlin /\ g1 = g).
  { destruct (String.eqb activation "relu"); [inversion En; now subst|].
    destruct (String.eqb activation "tanh"); [inversion En; now subst|].
    discriminate. }
  destruct Hn as [Hn ->]. clear En.
  apply bind_Ok in E as ([] & g1 & Ea & E).
  destruct (0 <? length hiddens) eqn:Hlen; [|discriminate].
  inversion Ea; subst g1. clear Ea. apply Nat.ltb_lt in Hlen.
  apply bind_Ok in E as (h0 & g1 & E0 & E).
  apply lift_Ok in E0 as [E0 ->]. apply getitem_Ok in E0 as [_ E0].
  apply bind_Ok in E as (l & g1 & El & E).
  apply bind_Ok in E as (l' & g2 & El' & E).
  destruct (new_layer_inv _ _ _ El El') as (w & b & -> & Hw & Hb).
  apply bind_Ok in E as (body & g3 & Eloop & E).
  inversion E; subst. clear E.
  exists nonlin, body. split; [exact Hn|].
  split; [destruct hiddens; [simpl in Hlen; lia | discriminate]|].
  split; [|reflexivity].
  rewrite <- nth_pred_last.
  revert Eloop.
  apply for_range_inv
    with (I := fun i modules => built ln nonlin num_inputs modules (nth i hiddens 0)).
  - now apply built_first.
  - intros i a ga a' ga' Hi Ha Eb.
    apply bind_Ok in Eb as (hi & gb & Ehi & Eb). apply lift_Ok in Ehi as [Ehi ->].
    apply bind_Ok in Eb as (hi1 & gb & Ehi1 & Eb). apply lift_Ok in Ehi1 as [Ehi1 ->].
    apply getitem_Ok in Ehi as [_ <-]. apply getitem_Ok in Ehi1 as [_ <-].
    apply bind_Ok in Eb as (l1 & gb & El1 & Eb).
    apply bind_Ok in Eb as (l1' & gc & El1' & Eb).
    destruct (new_layer_inv _ _ _ El1 El1') as (w1 & b1 & -> & Hw1 & Hb1).
    inversion Eb; subst. rewrite Nat.add_1_r in *.
    now apply built_next.
Qed.

(** [build_sequential] completes on a recognised activation, a positive
    input width and a non-empty list of positive widths. *)
Lemma build_sequential_total num_inputs hiddens activation ln oa g :
  activation = "relu"%string \/ activation = "tanh"%string ->
  0 < num_inputs -> hiddens <> [] -> Forall (lt 0) hiddens ->
  exists ms g', build_sequential num_inputs hiddens activation ln oa g = Ok (ms, g').
Proof.
  intros Hact Hn Hne Hpos.
  assert (Hnth : forall i, i < length hiddens -> 0 < nth i hiddens 0).
  { intros i Hi. rewrite Forall_forall in Hpos. apply Hpos. now apply nth_In. }
  assert (Hlen : 0 < length hiddens) by (destruct hiddens; [congruence | simpl; lia]).
  assert (Hpick : exists nonlin : module T,
    (if String.eqb activation "relu" then ret ReLU
     else if String.eqb activation "tanh" then ret Tanh
     else raise (ValueError (String.append "Unknown activation option "
                   (String.append activation "!")))) g = Ok (nonlin, g)).
  { destruct Hact as [-> | ->]; simpl; eexists; reflexivity. }
  destruct Hpick as (nonlin & Hpick).
  unfold build_sequential.
  erewrite bind_step by exact Hpick.
  apply Nat.ltb_lt in Hlen as Hlenb. rewrite Hlenb.
  erewrite bind_step by reflexivity.
  rewrite (getitem_lt hiddens Hlen).
  erewrite bind_step by reflexivity.
  destruct (new_layer_total g Hn (Hnth 0 Hlen)) as (l & g1 & l' & g2 & El & El').
  erewrite bind_step by exact El. erewrite bind_step by exact El'.
  match goal with
  | |- context [for_range ?n ?body ?init] =>
      destruct (@for_range_total T _ FW _ (fun i (_ : @Sequential T) => i <= n)
                  n body init)
        with (g := g2) as (body' & g3 & Eloop & _)
  end.
  - lia.
  - intros i a ga Hi _.
    assert (Hi0 : i < length hiddens) by lia.
    assert (Hi1 : i + 1 < length hiddens) by lia.
    rewrite (getitem_lt hiddens Hi0). erewrite bind_step by reflexivity.
    rewrite (getitem_lt hiddens Hi1). erewrite bind_step by reflexivity.
    destruct (new_layer_total ga (Hnth i Hi0) (Hnth (i + 1) Hi1))
      as (l1 & gb & l1' & gc & El1 & El1').
    erewrite bind_step by exact El1. erewrite bind_step by exact El1'.
    eexists _, _. split; [reflexivity | lia].
  - erewrite bind_step by exact Eloop. eexists _, _. reflexivity.
Qed.

End Builder.

(** ** Applying a stack *)

Section Stacks.
Context {T : Type} `{FW : Framework T}.

Lemma fold_Raise (ms : @Sequential T) (e : exn) :
  fold_left (fun acc m => y <~ acc ;; module_forward m y) ms (Raise e) = Raise e.
Proof. induction ms as [|m ms IH]; simpl; [reflexivity | exact IH]. Qed.

Lemma Sequential_forward_app (ms ms' : @Sequential T) (x : tensor T) :
  Sequential_forward (ms ++ ms') x =
  (y <~ Sequential_forward ms x ;; Sequential_forward ms' y).
Proof.
  unfold Sequential_forward. rewrite fold_left_app.
  destruct (fold_left _ ms (Ok x)) as [y|e]; simpl; [reflexivity | apply fold_Raise].
Qed.

Lemma maps_width_app (ms ms' : @Sequential T) (i h o : nat) :
  maps_width ms i h -> maps_width ms' h o -> maps_width (ms ++ ms') i o.
Proof.
  intros H1 H2 lead x Hx.
  destruct (H1 lead x Hx) as (y & Ey & Hy).
  destruct (H2 lead y Hy) as (y' & Ey' & Hy').
  exists y'. split; [|exact Hy'].
  rewrite Sequential_forward_app, Ey. exact Ey'.
Qed.

Lemma F_linear_shape (x w b : tensor T) (lead : list nat) (i o : nat) :
  shape w = [o; i] -> shape b = [o] -> shape x = lead ++ [i] ->
  exists y, F_linear x w b = Ok y /\ shape y = lead ++ [o].
Proof.
  intros Hw Hb Hx. unfold F_linear, rank, last_dim.
  rewrite Hw, Hb, shape_eqb_refl, Hx, snoc_length, last_last, Nat.eqb_refl,
    removelast_last.
  simpl. eexists. split; reflexivity.
Qed.

Lemma maps_width_Linear (i o : nat) (w b : tensor T) :
  shape w = [o; i] -> shape b = [o] -> maps_width [Linear i o w b] i o.
Proof.
  intros Hw Hb lead x Hx. unfold Sequential_forward. simpl.
  now apply F_linear_shape with (i := i).
Qed.

Lemma maps_width_LayerNorm (n : nat) : maps_width [@LayerNorm T n] n n.
Proof.
  intros lead x Hx. unfold Sequential_forward. simpl.
  destruct (@LayerNorm_forward_ok T _ FW n x) as (y & Ey & Hy).
  - rewrite Hx. now destruct lead.
  - unfold last_dim. now rewrite Hx, last_last.
  - exists y. split; congruence.
Qed.

Lemma maps_width_nonlin (m : module T) (n : nat) :
  is_nonlin m -> maps_width [m] n n.
Proof.
  intros [-> | ->] lead x Hx; unfold Sequential_forward; simpl;
    eexists; split; reflexivity || exact Hx.
Qed.

(** A stack grown by [build_sequential] maps its input width to the last
    width, whatever the leading sizes. *)
Lemma built_maps_width (ln : bool) (nonlin : module T) (i o : nat) ms :
  is_nonlin nonlin -> built ln nonlin i ms o -> maps_width ms i o.
Proof.
  intros Hn. induction 1 as [o w b Hw Hb | ms h o w b _ IH Hw Hb].
  - destruct ln; simpl.
    + change [Linear i o w b; LayerNorm o] with ([Linear i o w b] ++ [LayerNorm o]).
      eapply maps_width_app; [now apply maps_width_Linear | apply maps_width_LayerNorm].
    + now apply maps_width_Linear.
  - assert (H2 : maps_width ((ms ++ [nonlin]) ++ [Linear h o w b]) i o).
    { eapply maps_width_app; [|now apply maps_width_Linear].
      eapply maps_width_app; [exact IH | now apply maps_width_nonlin]. }
    destruct ln; [|exact H2].
    eapply maps_width_app; [exact H2 | apply maps_width_LayerNorm].
Qed.

Lemma normalised_nonlin (m : module T) (rest : @Sequential T) :
  is_nonlin m -> normalised (m :: rest) = normalised rest.
Proof. now intros [-> | ->]. Qed.

(** With layer normalisation on, every linear layer of a grown stack has
    its LayerNorm, also after more layers are appended. *)
Lemma built_normalised (nonlin : module T) (i o : nat) ms :
  is_nonlin nonlin -> built true nonlin i ms o ->
  forall rest, normalised (ms ++ rest) = normalised rest.
Proof.
  intros Hn. induction 1 as [o w b Hw Hb | ms h o w b _ IH Hw Hb]; intros rest.
  - simpl. now rewrite Nat.eqb_refl.
  - rewrite <- !app_assoc. rewrite IH.
    change ([nonlin] ++ [Linear h o w b] ++ [LayerNorm o] ++ rest)
      with (nonlin :: Linear h o w b :: LayerNorm o :: rest).
    rewrite normalised_nonlin by exact Hn. simpl. now rewrite Nat.eqb_refl.
Qed.

Lemma build_sequential_maps_width num_inputs hiddens activation ln oa g ms g' :
  build_sequential num_inputs hiddens activation ln oa g = Ok (ms, g') ->
  maps_width ms num_inputs (last hiddens 0).
Proof.
  intros E. apply build_sequential_inv in E as (nonlin & body & Hp & _ & Hb & ->).
  apply pick_nonlin_is_nonlin in Hp.
  pose proof (built_maps_width Hp Hb) as Hm.
  destruct oa; [|exact Hm].
  eapply maps_width_app; [exact Hm | now apply maps_width_nonlin].
Qed.

Lemma build_sequential_normalised num_inputs hiddens activation oa g ms g' :
  build_sequential num_inputs hiddens activation true oa g = Ok (ms, g') ->
  normalised ms = true.
Proof.
  intros E. apply build_sequential_inv in E as (nonlin & body & Hp & _ & Hb & ->).
  apply pick_nonlin_is_nonlin in Hp.
  destruct oa.
  - rewrite (built_normalised Hp Hb). now rewrite normalised_nonlin.
  - rewrite <- (app_nil_r body). now rewrite (built_normalised Hp Hb).
Qed.

End Stacks.

(** ** The layout of a built stack, and where it fails *)

Section StackLayout.
Context {T : Type} `{FW : Framework T}.

Lemma new_layer_initialised (i o : nat) g (l : module T) g1 l' g' :
  nn_Linear i o g = Ok (l, g1) -> _init_layer l g1 = Ok (l', g') ->
  kind_of l' = KLinear i o /\ initialised l'.
Proof.
  unfold nn_Linear. destruct (Linear_new i o g) as [[[w b] g2]|e] eqn:E; [|discriminate].
  intros E1. inversion E1; subst. simpl.
  destruct (Linear_new_shape _ _ _ E) as [Hw Hb].
  pose proof (orthogonal_shape w sqrt2 g1) as Ho.
  destruct (orthogonal_ w sqrt2 g1) as [w' g3] eqn:Eo. simpl in Ho.
  intros E2. inversion E2; subst. simpl. split; [reflexivity|].
  split; [|repeat split; congruence].
  exists w, g1. split; [exact Hw|]. now rewrite Eo.
Qed.

Lemma last_cons_default (a d : nat) (l : list nat) : last (a :: l) d = last l a.
Proof.
  revert a d. induction l as [|b l IH]; intros a d; [reflexivity|].
  change (last (a :: b :: l) d) with (last (b :: l) d).
  now rewrite (IH b d), (IH b a).
Qed.

Lemma blocks_snoc (nonlin : layer_kind) (ln : bool) (l : list nat) (prev h : nat) :
  blocks nonlin ln prev (l ++ [h]) =
  blocks nonlin ln prev l ++ nonlin :: KLinear (last l prev) h :: norm_kinds ln h.
Proof.
  revert prev. induction l as [|a l IH]; intros prev.
  - simpl. now rewrite app_nil_r.
  - rewrite last_cons_default. change ((a :: l) ++ [h]) with (a :: (l ++ [h])).
    cbn [blocks]. rewrite IH. cbn [app]. now rewrite app_assoc.
Qed.

Lemma firstn_snoc_nth (l : list nat) (i : nat) :
  i < length l -> firstn (S i) l = firstn i l ++ [nth i l 0].
Proof.
  revert i. induction l as [|a l IH]; intros i Hi; [simpl in Hi; lia|].
  destruct i as [|i]; [reflexivity|].
  simpl in Hi. cbn [firstn nth app]. rewrite <- IH by lia. reflexivity.
Qed.

Lemma last_firstn_nth (l : list nat) (h0 : nat) (i : nat) :
  i <= length l -> last (firstn i l) h0 = nth i (h0 :: l) 0.
Proof.
  revert h0 l. induction i as [|i IH]; intros h0 l Hi; [reflexivity|].
  destruct l as [|a l]; [simpl in Hi; lia|].
  simpl in Hi. cbn [firstn]. rewrite last_cons_default.
  rewrite IH by lia. reflexivity.
Qed.

Lemma kind_of_nonlin (activation : string) (nm : module T) :
  pick_nonlin activation = Some nm -> activation_kind activation = Some (kind_of nm).
Proof.
  unfold pick_nonlin, activation_kind.
  destruct (String.eqb activation "relu"); [now intros [= <-]|].
  destruct (String.eqb activation "tanh"); [now intros [= <-]|discriminate].
Qed.

(** The layers of a completed [build_sequential], by kind, and the state
    of their parameters. *)
Lemma build_sequential_layout_init num_inputs hiddens activation ln oa g
    (ms : @Sequential T) g' :
  build_sequential num_inputs hiddens activation ln oa g = Ok (ms, g') ->
  exists nonlin,
    activation_kind activation = Some nonlin /\
    map kind_of ms = layout num_inputs hiddens nonlin ln oa /\
    Forall initialised ms.
Proof.
  unfold build_sequential. intros E.
  apply bind_Ok in E as (nm & g1 & En & E).
  assert (Hn : pick_nonlin activation = Some nm /\ g1 = g).
  { unfold pick_nonlin.
    destruct (String.eqb activation "relu"); [inversion En; now subst|].
    destruct (String.eqb activation "tanh"); [inversion En; now subst|].
    discriminate. }
  destruct Hn as [Hn ->]. clear En.
  assert (Hinit_nm : initialised nm)
    by (destruct (pick_nonlin_is_nonlin _ Hn) as [-> | ->]; exact I).
  apply kind_of_nonlin in Hn.
  apply bind_Ok in E as ([] & g1 & Ea & E).
  destruct (0 <? length hiddens) eqn:Hlen; [|discriminate].
  inversion Ea; subst g1. clear Ea.
  destruct hiddens as [|h0 hs]; [discriminate|].
  change (getitem (h0 :: hs) 0) with (Ok h0) in E. rewrite bind_lift_Ok in E.
  apply bind_Ok in E as (l & g1 & El & E).
  apply bind_Ok in E as (l' & g2 & El' & E).
  destruct (new_layer_initialised _ _ _ El El') as (Hk & Hi).
  apply bind_Ok in E as (body & g3 & Eloop & E).
  inversion E; subst. clear E.
  exists (kind_of nm). split; [exact Hn|].
  assert (Hbody :
    map kind_of body =
      KLinear num_inputs h0 :: norm_kinds ln h0
        ++ blocks (kind_of nm) ln h0 (firstn (length (h0 :: hs) - 1) hs) /\
    Forall initialised body).
  { revert Eloop.
    apply for_range_inv with
      (I := fun i modules =>
              map kind_of modules =
                KLinear num_inputs h0 :: norm_kinds ln h0
                  ++ blocks (kind_of nm) ln h0 (firstn i hs) /\
              Forall initialised modules).
    - simpl firstn. simpl blocks. rewrite app_nil_r.
      destruct ln; simpl; rewrite Hk; split; repeat constructor; exact Hi.
    - intros i a ga a' ga' Hlt [Hka Hia] Eb.
      assert (Hlt' : i < length hs) by (simpl in Hlt; lia). clear Hlt.
      apply bind_Ok in Eb as (hi & gb & Ehi & Eb). apply lift_Ok in Ehi as [Ehi ->].
      apply bind_Ok in Eb as (hi1 & gb & Ehi1 & Eb). apply lift_Ok in Ehi1 as [Ehi1 ->].
      apply getitem_Ok in Ehi as [_ <-]. apply getitem_Ok in Ehi1 as [_ <-].
      apply bind_Ok in Eb as (l1 & gb & El1 & Eb).
      apply bind_Ok in Eb as (l1' & gc & El1' & Eb).
      destruct (new_layer_initialised _ _ _ El1 El1') as (Hk1 & Hi1).
      inversion Eb; subst. clear Eb.
      rewrite Nat.add_1_r in *.
      rewrite firstn_snoc_nth by exact Hlt'.
      rewrite blocks_snoc, last_firstn_nth by lia.
      change (nth (S i) (h0 :: hs) 0) with (nth i hs 0) in *.
      split.
      + destruct ln; rewrite !map_app, Hka; simpl map; rewrite Hk1;
          unfold norm_kinds; rewrite <- ?app_assoc; reflexivity.
      + destruct ln; repeat (apply Forall_app; split); trivial;
          repeat constructor; trivial. }
  destruct Hbody as [Hkb Hib].
  replace (length (h0 :: hs) - 1) with (length hs) in Hkb by (simpl; lia).
  rewrite firstn_all in Hkb.
  split.
  - unfold layout. destruct oa; [|now rewrite Hkb, app_nil_r].
    rewrite map_app, Hkb. simpl. now rewrite <- app_assoc.
  - destruct oa; [|exact Hib].
    apply Forall_app. split; [exact Hib | repeat constructor; exact Hinit_nm].
Qed.

Lemma blocks_length (nonlin : layer_kind) (ln : bool) (prev : nat) (hs : list nat) :
  length (blocks nonlin ln prev hs) = length hs * (if ln then 3 else 2).
Proof.
  revert prev. induction hs as [|h hs IH]; intros prev; [reflexivity|].
  cbn [blocks length]. rewrite length_app, IH.
  destruct ln; simpl; lia.
Qed.

Lemma F_linear_wrong_width (x w b : tensor T) (lead : list nat) (i o n : nat) :
  shape w = [o; i] -> shape b = [o] -> shape x = lead ++ [n] -> n <> i ->
  F_linear x w b = Raise (RuntimeError "mat1 and mat2 shapes cannot be multiplied").
Proof.
  intros Hw Hb Hx Hn. unfold F_linear, rank, last_dim.
  rewrite Hw, Hb, shape_eqb_refl, Hx, snoc_length, last_last.
  apply Nat.eqb_neq in Hn. now rewrite Hn.
Qed.

Lemma F_linear_rank0 (x w b : tensor T) (i o : nat) :
  shape w = [o; i] -> shape b = [o] -> shape x = [] ->
  F_linear x w b = Raise (RuntimeError "mat1 and mat2 shapes cannot be multiplied").
Proof.
  intros Hw Hb Hx. unfold F_linear, rank. now rewrite Hw, Hb, shape_eqb_refl, Hx.
Qed.

Lemma Sequential_forward_first_fails (m : module T) (rest : @Sequential T)
    (x : tensor T) (e : exn) :
  module_forward m x = Raise e -> Sequential_forward (m :: rest) x = Raise e.
Proof.
  intros E. unfold Sequential_forward. simpl. rewrite E. apply fold_Raise.
Qed.

End StackLayout.

(** ** Concatenating, slicing and sampling *)

Section Forward.
Context {T : Type} `{FW : Framework T}.

Lemma not_empty_1d (lead : list nat) (w : nat) :
  lead <> [] \/ 0 < w -> shape_eqb (lead ++ [w]) [0] = false.
Proof.
  intros [Hl | Hw]; [|now apply shape_eqb_snoc_pos].
  destruct (shape_eqb (lead ++ [w]) [0]) eqn:E; trivial.
  apply shape_eqb_eq in E. apply (f_equal (@length nat)) in E.
  rewrite snoc_length in E. destruct lead; [congruence | simpl in E; lia].
Qed.

Lemma cat_last2 (a b : tensor T) (lead : list nat) (wa wb : nat) :
  shape a = lead ++ [wa] -> shape b = lead ++ [wb] -> lead <> [] ->
  cat_last [a; b] = Ok (mkTensor (lead ++ [wa + wb]) (cat_item [a; b])).
Proof.
  intros Ha Hb Hl. destruct a as [sa fa], b as [sb fb]. simpl in Ha, Hb. subst sa sb.
  unfold cat_last, rank, last_dim. simpl.
  rewrite !snoc_length, !not_empty_1d by now left. simpl.
  rewrite ?snoc_length, ?Nat.eqb_refl. simpl.
  rewrite !removelast_last, shape_eqb_refl, !last_last. simpl.
  now rewrite Nat.add_0_r.
Qed.

Lemma cat_last3 (a b c : tensor T) (lead : list nat) (wa wb wc : nat) :
  shape a = lead ++ [wa] -> shape b = lead ++ [wb] -> shape c = lead ++ [wc] ->
  0 < wa -> 0 < wb -> 0 < wc ->
  cat_last [a; b; c] = Ok (mkTensor (lead ++ [wa + wb + wc]) (cat_item [a; b; c])).
Proof.
  intros Ha Hb Hc Pa Pb Pc. destruct a as [sa fa], b as [sb fb], c as [sc fc].
  simpl in Ha, Hb, Hc. subst sa sb sc.
  unfold cat_last, rank, last_dim. simpl.
  rewrite !snoc_length, !not_empty_1d by now right. simpl.
  rewrite ?snoc_length, ?Nat.eqb_refl. simpl.
  rewrite !removelast_last, shape_eqb_refl, !last_last. simpl.
  now rewrite Nat.add_0_r, Nat.add_assoc.
Qed.

Lemma squeeze_unsqueeze (x : tensor T) : squeeze0 (unsqueeze0 x) = x.
Proof. now destruct x. Qed.

Lemma getitem_upto_last (x : tensor T) (lead : list nat) (w k ax : nat) :
  shape x = lead ++ [w] -> ax = length lead ->
  getitem_upto ax k x = Ok (mkTensor (lead ++ [Nat.min k w]) (item x)).
Proof.
  intros Hx ->. unfold getitem_upto, rank. rewrite Hx, snoc_length, map_nth_last.
  now rewrite (proj2 (Nat.ltb_lt _ _) (Nat.lt_succ_diag_r _)).
Qed.

Lemma getitem_from_last (x : tensor T) (lead : list nat) (w k ax : nat) :
  shape x = lead ++ [w] -> ax = length lead ->
  getitem_from ax k x =
  Ok (mkTensor (lead ++ [w - k])
        (fun idx => item x (map_nth (fun i => i + k) ax idx))).
Proof.
  intros Hx ->. unfold getitem_from, rank. rewrite Hx, snoc_length, map_nth_last.
  now rewrite (proj2 (Nat.ltb_lt _ _) (Nat.lt_succ_diag_r _)).
Qed.

(** Splitting the last axis at [k] and concatenating the two parts gives
    the tensor back. *)
Lemma cat_split_eq (x : tensor T) (lead : list nat) (w k : nat) :
  shape x = lead ++ [w] ->
  tensor_eq
    (mkTensor (lead ++ [Nat.min k w + (w - k)])
       (cat_item
          [mkTensor (lead ++ [Nat.min k w]) (item x);
           mkTensor (lead ++ [w - k])
             (fun idx => item x (map_nth (fun i => i + k) (length lead) idx))]))
    x.
Proof.
  intros Hx. split; simpl.
  - rewrite Hx. do 2 f_equal. lia.
  - intros idx Hidx. apply in_range_snoc in Hidx as (i & j & -> & Hi & Hj & _).
    unfold last_dim. simpl. rewrite !last_last.
    destruct (Nat.ltb_spec j (Nat.min k w)) as [Hlt | Hge]; [reflexivity|].
    rewrite set_last_snoc, last_last.
    assert (Hk : Nat.min k w = k) by lia. rewrite Hk.
    destruct (Nat.ltb_spec (j - k) (w - k)) as [_ | Hbad]; [|lia].
    rewrite <- Hi, map_nth_last. do 3 f_equal. lia.
Qed.

(** The sample: [mu + eps * exp(0.5 * log_var)] at every index, with
    [eps] the next draw of the random source. *)
Lemma reparameterise_spec (self : VAETaskEncoder.t T) (mu log_var : tensor T) g :
  shape mu = shape log_var ->
  exists z,
    VAETaskEncoder.reparameterise self mu log_var g
      = Ok (z, snd (randn (shape log_var) g)) /\
    shape z = shape mu /\
    forall idx, in_range (shape mu) idx ->
      item z idx =
      add (item mu idx)
          (mul (fst (randn (shape log_var) g) idx)
               (exp (mul half (item log_var idx)))).
Proof.
  intros Hs.
  unfold VAETaskEncoder.reparameterise, bind, randn_like, lift, ret,
    tensor_mul, tensor_add, broadcast2, torch_exp, scalar_mul, tmap.
  simpl. destruct (randn (shape log_var) g) as [eps g1]. simpl.
  rewrite broadcast_shapes_same. simpl.
  rewrite Hs, broadcast_shapes_same.
  eexists. split; [reflexivity|]. split; [reflexivity|].
  intros idx Hidx. simpl. now rewrite !expand_index_in_range.
Qed.

(** On the non-recurrent path [forward] is the output stack's raw output
    followed by the split-and-sample statements. *)
Lemma forward_factor (self : VAETaskEncoder.t T) obs act rew hiddens g :
  VAETaskEncoder.use_rnn self = false ->
  VAETaskEncoder.forward self obs act rew hiddens g =
  (x <- lift (VAETaskEncoder.raw_output self obs act rew) ;;
   split_and_sample self x) g.
Proof.
  intros Hr.
  unfold VAETaskEncoder.forward, VAETaskEncoder.raw_output, split_and_sample.
  unfold bind at 1 3. unfold lift at 1 5.
  destruct (cat_last [obs; act; rew]) as [x0|e]; simpl; [|reflexivity].
  unfold bind at 1 3.
  assert (Hfc : forall (c : res (tensor T)),
    (match c with Ok a => Ok (a, g) | Raise e => Raise e end) =
    lift c g) by reflexivity.
  destruct (VAETaskEncoder.input_fc self) as [fc|].
  - unfold lift at 1. destruct (Sequential_forward fc x0) as [x1|e]; simpl; [|reflexivity].
    rewrite Hr. unfold bind at 1. unfold bind at 1.
    destruct (length (shape x1) <? 3).
    + unfold bind at 1 2. unfold lift at 1 2.
      destruct (getitem (shape x1) 0); simpl; [|reflexivity].
      rewrite squeeze_unsqueeze. unfold bind at 1. unfold lift at 1.
      destruct (Sequential_forward (VAETaskEncoder.output_fc self) x1); reflexivity.
    + simpl. unfold bind at 1. unfold lift at 1.
      destruct (Sequential_forward (VAETaskEncoder.output_fc self) x1); reflexivity.
  - simpl. rewrite Hr. unfold bind at 1. unfold bind at 1.
    destruct (length (shape x0) <? 3).
    + unfold bind at 1 2. unfold lift at 1 2.
      destruct (getitem (shape x0) 0); simpl; [|reflexivity].
      rewrite squeeze_unsqueeze. unfold bind at 1. unfold lift at 1.
      destruct (Sequential_forward (VAETaskEncoder.output_fc self) x0); reflexivity.
    + simpl. unfold bind at 1. unfold lift at 1.
      destruct (Sequential_forward (VAETaskEncoder.output_fc self) x0); reflexivity.
Qed.

End Forward.

(** ** The encoder *)

Section Encoder.
Context {T : Type} `{FW : Framework T}.

Lemma shape_snoc (s : list nat) :
  s <> [] -> exists lead w, s = lead ++ [w] /\ S (length lead) = length s.
Proof.
  intros Hs. exists (removelast s), (last s 0).
  pose proof (app_removelast_last 0 Hs) as E. split; [exact E|].
  rewrite E at 2. now rewrite snoc_length.
Qed.

(** The split-and-sample statements on a raw output of rank 2 or 3. *)
Lemma split_and_sample_unfold (self : VAETaskEncoder.t T) (x : tensor T)
    (lead : list nat) (w : nat) g :
  shape x = lead ++ [w] -> length lead = 1 \/ length lead = 2 ->
  let k := VAETaskEncoder.task_emb_dim self in
  let mu := mkTensor (lead ++ [Nat.min k w]) (item x) in
  let log_var := mkTensor (lead ++ [w - k])
                   (fun idx => item x (map_nth (fun i => i + k) (length lead) idx)) in
  let task_emb := mkTensor (lead ++ [Nat.min k w + (w - k)]) (cat_item [mu; log_var]) in
  split_and_sample self x g =
  (z <- VAETaskEncoder.reparameterise self mu log_var ;;
   ret (VAETaskEncoder.mkOutputs task_emb mu log_var z None)) g.
Proof.
  intros Hx Hl k mu log_var task_emb.
  assert (Hne : lead <> []) by (destruct lead; [simpl in Hl; lia | discriminate]).
  unfold split_and_sample, rank. rewrite Hx, snoc_length.
  assert (Hcat : cat_last [mu; log_var] = Ok task_emb)
    by (now apply cat_last2 with (lead := lead)).
  subst task_emb mu log_var k.
  destruct Hl as [Hl | Hl]; rewrite Hl in Hcat; rewrite Hl;
    change (2 <? 2) with false; change (2 <? 3) with true; cbv iota;
    rewrite getitem_upto_last with (lead := lead) (w := w)
      by (exact Hx || (symmetry; exact Hl));
    rewrite getitem_from_last with (lead := lead) (w := w)
      by (exact Hx || (symmetry; exact Hl));
    repeat (rewrite ?bind_lift_Ok, ?bind_ret; cbv beta iota);
    rewrite Hcat, bind_lift_Ok; reflexivity.
Qed.







(** Split-and-sample returns when the raw output has rank 2 or 3 and last
    size twice the embedding size. *)
Lemma split_and_sample_total (self : VAETaskEncoder.t T) (x : tensor T)
    (lead : list nat) g :
  let k := VAETaskEncoder.task_emb_dim self in
  shape x = lead ++ [k * 2] -> length lead = 1 \/ length lead = 2 ->
  exists out g',
    split_and_sample self x g = Ok (out, g') /\
    shape (VAETaskEncoder.mu out) = lead ++ [k] /\
    shape (VAETaskEncoder.log_var out) = lead ++ [k] /\
    shape (VAETaskEncoder.task_emb out) = lead ++ [2 * k] /\
    shape (VAETaskEncoder.z out) = lead ++ [k].
Proof.
  intros k Hx Hl.
  rewrite split_and_sample_unfold with (lead := lead) (w := k * 2) by assumption.
  fold k.
  match goal with
  | |- context [VAETaskEncoder.reparameterise self ?m ?l] =>
      destruct (reparameterise_spec self m l g) as (z & Ez & Hz & _)
  end.
  { simpl. do 2 f_equal. lia. }
  erewrite bind_step by exact Ez.
  eexists _, _. split; [reflexivity|]. simpl. rewrite Hz. simpl.
  repeat split; do 2 f_equal; lia.
Qed.

(** The fields [__init__] sets, and the two stacks it builds. *)
Lemma encoder_init_inv obs_dim act_dim rew_dim k hiddens activation ln g enc g' :
  VAETaskEncoder.__init__ obs_dim act_dim rew_dim k hiddens activation ln g
    = Ok (enc, g') ->
  exists h0 fc1 fc2 g1,
    getitem hiddens 0 = Ok h0 /\
    build_sequential (obs_dim + act_dim + rew_dim) [h0] activation true true g
      = Ok (fc1, g1) /\
    build_sequential h0 (skipn 1 hiddens ++ [k * 2]) activation true true g1
      = Ok (fc2, g') /\
    enc = VAETaskEncoder.mk false k ln None (Some fc1) None fc2.
Proof.
  unfold VAETaskEncoder.__init__, default_layer_norm. intros E.
  apply bind_Ok in E as (h0 & g0 & E0 & E). apply lift_Ok in E0 as [E0 ->].
  apply bind_Ok in E as (fc1 & g1 & E1 & E).
  apply bind_Ok in E as (h0' & g2 & E0' & E). apply lift_Ok in E0' as [E0' ->].
  assert (h0' = h0) by congruence. subst h0'.
  apply bind_Ok in E as (fc2 & g3 & E2 & E).
  inversion E; subst. now exists h0, fc1, fc2, g1.
Qed.

Lemma encoder_init_total obs_dim act_dim rew_dim k hiddens activation ln g :
  0 < obs_dim + act_dim + rew_dim -> 0 < k ->
  hiddens <> [] -> Forall (lt 0) hiddens ->
  activation = "relu"%string \/ activation = "tanh"%string ->
  exists enc g',
    VAETaskEncoder.__init__ obs_dim act_dim rew_dim k hiddens activation ln g
      = Ok (enc, g').
Proof.
  intros Hin Hk Hne Hpos Hact.
  destruct hiddens as [|h0 hs]; [congruence|].
  assert (Hh0 : 0 < h0) by now inversion Hpos.
  destruct (@build_sequential_total T _ FW (obs_dim + act_dim + rew_dim) [h0]
              activation true true g) as (fc1 & g1 & E1); trivial;
    [discriminate | now repeat constructor |].
  destruct (@build_sequential_total T _ FW h0 (hs ++ [k * 2])
              activation true true g1) as (fc2 & g2 & E2); trivial.
  { now destruct hs. }
  { apply Forall_app. split; [now inversion Hpos | repeat constructor; lia]. }
  unfold VAETaskEncoder.__init__, default_layer_norm. simpl getitem.
  erewrite bind_step by reflexivity. erewrite bind_step by exact E1.
  erewrite bind_step by reflexivity. simpl skipn. erewrite bind_step by exact E2.
  eexists _, _. reflexivity.
Qed.

(** The raw output on inputs of matching leading sizes and the widths the
    encoder was built for. *)
Lemma encoder_raw_output_total obs_dim act_dim rew_dim k hiddens activation ln g
    enc g' (lead : list nat) (obs act rew : tensor T) :
  VAETaskEncoder.__init__ obs_dim act_dim rew_dim k hiddens activation ln g
    = Ok (enc, g') ->
  0 < obs_dim -> 0 < act_dim -> 0 < rew_dim ->
  shape obs = lead ++ [obs_dim] -> shape act = lead ++ [act_dim] ->
  shape rew = lead ++ [rew_dim] ->
  exists x, VAETaskEncoder.raw_output enc obs act rew = Ok x /\
            shape x = lead ++ [k * 2].
Proof.
  intros E Po Pa Pr Ho Ha Hr.
  apply encoder_init_inv in E as (h0 & fc1 & fc2 & g1 & _ & E1 & E2 & ->).
  apply build_sequential_maps_width in E1, E2.
  rewrite last_last in E2. simpl in E1.
  unfold VAETaskEncoder.raw_output. simpl.
  rewrite cat_last3 with (lead := lead) (wa := obs_dim) (wb := act_dim)
    (wc := rew_dim) by assumption.
  simpl.
  match goal with
  | |- context [Sequential_forward fc1 ?x0] =>
      destruct (E1 lead x0 eq_refl) as (x1 & Ex1 & Hx1)
  end.
  rewrite Ex1. simpl.
  assert (Hout : (if length (shape x1) <? 3
                  then _ <~ getitem (shape x1) 0 ;; Ok (squeeze0 (unsqueeze0 x1))
                  else Ok x1) = Ok x1).
  { destruct (length (shape x1) <? 3); [|reflexivity].
    rewrite Hx1. rewrite squeeze_unsqueeze. now destruct lead. }
  rewrite Hout. simpl. exact (E2 lead x1 Hx1).
Qed.

End Encoder.

(** ** The decoder *)

Section Decoder.
Context {T : Type} `{FW : Framework T}.

(** [build_sequential] on a single width: one linear layer, its LayerNorm
    when asked for, and the trailing nonlinearity when asked for. *)
Lemma build_sequential_single n h activation ln oa g (ms : @Sequential T) g' :
  build_sequential n [h] activation ln oa g = Ok (ms, g') ->
  exists nonlin w b,
    pick_nonlin activation = Some nonlin /\
    shape w = [h; n] /\ shape b = [h] /\
    ms = (let body := if ln then [Linear n h w b; LayerNorm h]
                      else [Linear n h w b] in
          if oa then body ++ [nonlin] else body).
Proof.
  unfold build_sequential, pick_nonlin. intros E.
  apply bind_Ok in E as (nonlin & g1 & En & E).
  assert (Hn : (if String.eqb activation "relu" then Some ReLU
                else if String.eqb activation "tanh" then Some Tanh
                else None) = Some nonlin /\ g1 = g).
  { destruct (String.eqb activation "relu"); [inversion En; now subst|].
    destruct (String.eqb activation "tanh"); [inversion En; now subst|].
    discriminate. }
  destruct Hn as [Hn ->]. clear En.
  change (0 <? length [h]) with true in E. cbv iota in E.
  change (getitem [h] 0) with (Ok h) in E.
  rewrite bind_ret, bind_lift_Ok in E.
  apply bind_Ok in E as (l & g1 & El & E).
  apply bind_Ok in E as (l' & g2 & El' & E).
  destruct (new_layer_inv _ _ _ El El') as (w & b & -> & Hw & Hb).
  change (length [h] - 1) with 0 in E. rewrite for_range_0, bind_ret in E.
  inversion E; subst. exists nonlin, w, b. repeat split; trivial.
Qed.

Lemma decoder_init_inv te od ad rd activation g (dec : TaskDecoder.t T) g' :
  TaskDecoder.__init__ te od ad rd activation g = Ok (dec, g') ->
  exists w b,
    shape w = [od + rd; te + od + ad] /\ shape b = [od + rd] /\
    dec = TaskDecoder.mk od rd
            [Linear (te + od + ad) (od + rd) w b; LayerNorm (od + rd)].
Proof.
  unfold TaskDecoder.__init__, default_layer_norm, default_output_activation.
  intros E. apply bind_Ok in E as (ms & g1 & E1 & E).
  apply build_sequential_single in E1 as (nonlin & w & b & _ & Hw & Hb & ->).
  inversion E; subst. now exists w, b.
Qed.

Lemma decoder_init_total te od ad rd activation g :
  0 < te + od + ad -> 0 < od + rd ->
  activation = "relu"%string \/ activation = "tanh"%string ->
  exists (dec : TaskDecoder.t T) g',
    TaskDecoder.__init__ te od ad rd activation g = Ok (dec, g').
Proof.
  intros Hi Ho Hact.
  destruct (@build_sequential_total T _ FW (te + od + ad) [od + rd] activation
              default_layer_norm default_output_activation g)
    as (ms & g1 & E); trivial; [discriminate | now repeat constructor |].
  unfold TaskDecoder.__init__. erewrite bind_step by exact E.
  eexists _, _. reflexivity.
Qed.

Lemma decoder_maps_width te od ad rd activation g (dec : TaskDecoder.t T) g' :
  TaskDecoder.__init__ te od ad rd activation g = Ok (dec, g') ->
  maps_width (TaskDecoder.decoder dec) (te + od + ad) (od + rd) /\
  TaskDecoder.obs_dim dec = od /\ TaskDecoder.rew_dim dec = rd.
Proof.
  intros E. apply decoder_init_inv in E as (w & b & Hw & Hb & ->). simpl.
  split; [|now split].
  change [Linear (te + od + ad) (od + rd) w b; LayerNorm (od + rd)]
    with ([Linear (te + od + ad) (od + rd) w b] ++ [@LayerNorm T (od + rd)]).
  eapply maps_width_app; [now apply maps_width_Linear | apply maps_width_LayerNorm].
Qed.

(** The raw output on inputs of a common rank and the widths the decoder
    was built for. *)
Lemma decoder_raw_output_total te od ad rd activation g (dec : TaskDecoder.t T) g'
    (lead : list nat) (task_emb obs act : tensor T) :
  TaskDecoder.__init__ te od ad rd activation g = Ok (dec, g') ->
  0 < te -> 0 < od -> 0 < ad ->
  shape task_emb = lead ++ [te] -> shape obs = lead ++ [od] ->
  shape act = lead ++ [ad] ->
  exists out, TaskDecoder.raw_output dec task_emb obs act = Ok out /\
              shape out = lead ++ [od + rd].
Proof.
  intros E Pt Po Pa Ht Ho Ha.
  apply decoder_maps_width in E as (Hm & _ & _).
  unfold TaskDecoder.raw_output.
  rewrite cat_last3 with (lead := lead) (wa := te) (wb := od) (wc := ad)
    by assumption.
  simpl. now apply Hm.
Qed.

Lemma decoder_forward_factor (dec : TaskDecoder.t T) (task_emb obs act out : tensor T) :
  TaskDecoder.raw_output dec task_emb obs act = Ok out ->
  TaskDecoder.forward dec task_emb obs act =
  (if rank out =? 2 then
     obs_pred <~ getitem_upto 1 (TaskDecoder.obs_dim dec) out ;;
     rew_pred <~ getitem_from 1 (TaskDecoder.obs_dim dec) out ;;
     Ok (obs_pred, rew_pred)
   else if rank out =? 3 then
     obs_pred <~ getitem_upto 2 (TaskDecoder.obs_dim dec) out ;;
     rew_pred <~ getitem_from 2 (TaskDecoder.obs_dim dec) out ;;
     Ok (obs_pred, rew_pred)
   else Raise (UnboundLocalError "obs_pred")).
Proof.
  unfold TaskDecoder.raw_output, TaskDecoder.forward.
  destruct (cat_last [task_emb; obs; act]) as [x|e]; simpl; [|discriminate].
  now intros ->.
Qed.

(** The raw output for any split of the feature widths, at any rank. *)
Lemma decoder_raw_output_widths te od ad rd activation g (dec : TaskDecoder.t T) g'
    (lead : list nat) (task_emb obs act : tensor T) (wt wo wa : nat) :
  TaskDecoder.__init__ te od ad rd activation g = Ok (dec, g') ->
  0 < wt -> 0 < wo -> 0 < wa ->
  shape task_emb = lead ++ [wt] -> shape obs = lead ++ [wo] ->
  shape act = lead ++ [wa] ->
  (wt + wo + wa = te + od + ad ->
   exists raw, TaskDecoder.raw_output dec task_emb obs act = Ok raw /\
               shape raw = lead ++ [od + rd]) /\
  (wt + wo + wa <> te + od + ad ->
   exists msg, TaskDecoder.raw_output dec task_emb obs act
                 = Raise (RuntimeError msg)).
Proof.
  intros E Pt Po Pa Ht Ho Ha.
  pose proof (decoder_maps_width _ _ _ _ _ _ E) as (Hm & _ & _).
  apply decoder_init_inv in E as (w & b & Hw & Hb & ->).
  unfold TaskDecoder.raw_output.
  rewrite cat_last3 with (lead := lead) (wa := wt) (wb := wo) (wc := wa)
    by assumption.
  simpl. split.
  - intros Hsum. rewrite Hsum. now apply Hm.
  - intros Hsum. eexists.
    erewrite Sequential_forward_first_fails; [reflexivity|]. simpl.
    apply F_linear_wrong_width
      with (lead := lead) (i := te + od + ad) (o := od + rd) (n := wt + wo + wa);
      trivial.
Qed.

End Decoder.

(** * The properties of the specification *)

Section Specification.
Context {T : Type} `{FW : Framework T}.

(** C1. For [mean] and [log_variance] of identical shape,
    [reparameterise] returns, at every index,
    [mean + eps * exp(0.5 * log_variance)], where [eps] is the tensor of
    that shape drawn from the random source during the call; the result
    has the shape of the inputs, and nothing of the encoder instance is
    read or kept: any two instances give the same result. *)
Theorem C1_reparameterise_formula (self : VAETaskEncoder.t T)
    (mean log_variance : tensor T) (g : rng) :
  shape mean = shape log_variance ->
  exists z,
    VAETaskEncoder.reparameterise self mean log_variance g
      = Ok (z, snd (randn (shape log_variance) g)) /\
    shape z = shape mean /\
    (forall idx, in_range (shape mean) idx ->
       item z idx =
       add (item mean idx)
           (mul (fst (randn (shape log_variance) g) idx)
                (exp (mul half (item log_variance idx))))) /\
    (forall self' : VAETaskEncoder.t T,
       VAETaskEncoder.reparameterise self' mean log_variance g =
       VAETaskEncoder.reparameterise self mean log_variance g).
Proof.
  intros Hs. destruct (reparameterise_spec self mean log_variance g Hs)
    as (z & Ez & Hz & Hitem).
  exists z. repeat split; trivial.
Qed.

(** C2. For a valid configuration (positive [obs_dim], [act_dim],
    [rew_dim], [task_embedding_dim], a non-empty list of positive hidden
    widths, a recognised activation) the encoder is constructed, and on
    every input triple with common leading sizes, of rank 2 or of rank 3,
    [forward] returns [mean] and [log_variance] of last size
    [task_embedding_dim] and [task_embedding] of last size
    [2 * task_embedding_dim], each with exactly the leading sizes of the
    input: no axis is added for a rank-2 input. *)
Theorem C2_forward_shapes (obs_dim act_dim rew_dim task_embedding_dim : nat)
    (hiddens : list nat) (activation : string) (layer_norm : bool) (g : rng) :
  0 < obs_dim -> 0 < act_dim -> 0 < rew_dim -> 0 < task_embedding_dim ->
  hiddens <> [] -> Forall (lt 0) hiddens ->
  activation = "relu"%string \/ activation = "tanh"%string ->
  exists enc g1,
    VAETaskEncoder.__init__ obs_dim act_dim rew_dim task_embedding_dim
      hiddens activation layer_norm g = Ok (enc, g1) /\
    forall (lead : list nat) (obs act rew : tensor T) hidden g2,
      length lead = 1 \/ length lead = 2 ->
      shape obs = lead ++ [obs_dim] ->
      shape act = lead ++ [act_dim] ->
      shape rew = lead ++ [rew_dim] ->
      exists out g3,
        VAETaskEncoder.forward enc obs act rew hidden g2 = Ok (out, g3) /\
        shape (VAETaskEncoder.mu out) = lead ++ [task_embedding_dim] /\
        shape (VAETaskEncoder.log_var out) = lead ++ [task_embedding_dim] /\
        shape (VAETaskEncoder.task_emb out) = lead ++ [2 * task_embedding_dim] /\
        shape (VAETaskEncoder.z out) = lead ++ [task_embedding_dim].
Proof.
  intros Po Pa Pr Pk Hne Hpos Hact.
  destruct (@encoder_init_total T _ FW obs_dim act_dim rew_dim task_embedding_dim
              hiddens activation layer_norm g) as (enc & g1 & E); trivial; [lia|].
  exists enc, g1. split; [exact E|].
  intros lead obs act rew hidden g2 Hl Ho Ha Hr.
  destruct encoder_raw_output_total
    with (1 := E) (lead := lead) (obs := obs) (act := act) (rew := rew)
    as (x & Ex & Hx); trivial.
  apply encoder_init_inv in E as (h0 & fc1 & fc2 & g0 & _ & _ & _ & ->).
  rewrite forward_factor by reflexivity.
  rewrite Ex, bind_lift_Ok.
  match goal with
  | |- context [split_and_sample ?s _ _] =>
      exact (@split_and_sample_total T H FW s x lead g2 Hx Hl)
  end.
Qed.


(** C3. For a valid configuration the decoder is constructed, and on
    every input triple [(task_embedding_sample, obs, act)] with common
    leading sizes, of rank 2 or of rank 3, [forward] returns
    [predicted_observation], the first [obs_dim] features of the stack's
    raw output, and [predicted_reward], the remaining [rew_dim] features:
    their last sizes are [obs_dim] and [rew_dim] and add up to the raw
    output's last size [obs_dim + rew_dim]. *)
Theorem C3_decoder_split (task_embedding_dim obs_dim act_dim rew_dim : nat)
    (activation : string) (g : rng) :
  0 < task_embedding_dim -> 0 < obs_dim -> 0 < act_dim -> 0 < rew_dim ->
  activation = "relu"%string \/ activation = "tanh"%string ->
  exists dec g1,
    TaskDecoder.__init__ task_embedding_dim obs_dim act_dim rew_dim activation g
      = Ok (dec, g1) /\
    forall (lead : list nat) (sample obs act : tensor T),
      length lead = 1 \/ length lead = 2 ->
      shape sample = lead ++ [task_embedding_dim] ->
      shape obs = lead ++ [obs_dim] ->
      shape act = lead ++ [act_dim] ->
      exists raw predicted_observation predicted_reward,
        TaskDecoder.raw_output dec sample obs act = Ok raw /\
        shape raw = lead ++ [obs_dim + rew_dim] /\
        TaskDecoder.forward dec sample obs act
          = Ok (predicted_observation, predicted_reward) /\
        shape predicted_observation = lead ++ [obs_dim] /\
        shape predicted_reward = lead ++ [rew_dim] /\
        last_dim predicted_observation + last_dim predicted_reward = last_dim raw /\
        (forall i j, length i = length lead -> j < obs_dim ->
           item predicted_observation (i ++ [j]) = item raw (i ++ [j])) /\
        (forall i j, length i = length lead -> j < rew_dim ->
           item predicted_reward (i ++ [j]) = item raw (i ++ [obs_dim + j])).
Proof.
  intros Pt Po Pa Pr Hact.
  destruct (@decoder_init_total T _ FW task_embedding_dim obs_dim act_dim rew_dim
              activation g) as (dec & g1 & E); trivial; try lia.
  exists dec, g1. split; [exact E|].
  intros lead sample obs act Hl Hs Ho Ha.
  destruct decoder_raw_output_total
    with (1 := E) (lead := lead) (task_emb := sample) (obs := obs) (act := act)
    as (raw & Eraw & Hraw); trivial.
  apply decoder_maps_width in E as (_ & Hod & _).
  exists raw.
  rewrite (decoder_forward_factor _ _ _ _ Eraw), Hod.
  unfold rank. rewrite Hraw, snoc_length.
  assert (Hmin : Nat.min obs_dim (obs_dim + rew_dim) = obs_dim) by lia.
  assert (Hsub : obs_dim + rew_dim - obs_dim = rew_dim) by lia.
  destruct Hl as [Hl | Hl]; rewrite Hl;
    change (2 =? 2) with true; change (3 =? 2) with false;
    change (3 =? 3) with true; cbv iota;
    rewrite getitem_upto_last with (lead := lead) (w := obs_dim + rew_dim)
      by (exact Hraw || (symmetry; exact Hl));
    rewrite getitem_from_last with (lead := lead) (w := obs_dim + rew_dim)
      by (exact Hraw || (symmetry; exact Hl));
    unfold bind_res; cbv beta iota; rewrite Hmin, Hsub;
    eexists _, _; (split; [exact Eraw|]); (split; [reflexivity|]);
    (split; [reflexivity|]); (split; [reflexivity|]); (split; [reflexivity|]);
    (split; [unfold last_dim; simpl; rewrite ?Hraw, !last_last; reflexivity|]);
    (split; [reflexivity|]);
    intros i j Hi Hj; cbn [item]; rewrite <- Hi, map_nth_last;
    do 3 f_equal; lia.
Qed.


(** C9. Every constructed encoder is in non-recurrent mode, and
    [init_hidden] on it fails with an attribute error on [rnn_hidden_dim]
    instead of returning a tensor, for every batch size. *)
Theorem C9_init_hidden_fails
    (obs_dim act_dim rew_dim task_embedding_dim : nat) (hiddens : list nat)
    (activation : string) (layer_norm : bool) (g : rng)
    (enc : VAETaskEncoder.t T) (g1 : rng) :
  VAETaskEncoder.__init__ obs_dim act_dim rew_dim task_embedding_dim
    hiddens activation layer_norm g = Ok (enc, g1) ->
  VAETaskEncoder.use_rnn enc = false /\
  VAETaskEncoder.rnn_hidden_dim enc = None /\
  forall batch_size,
    VAETaskEncoder.init_hidden enc batch_size
      = Raise (AttributeError "rnn_hidden_dim").
Proof.
  intros E. apply encoder_init_inv in E as (h0 & fc1 & fc2 & g0 & _ & _ & _ & ->).
  repeat split.
Qed.

(** C10. Whatever the [layer_norm] argument, the encoder's two stacks
    are built with layer normalisation.  The input stack is the linear
    layer from [obs_dim + act_dim + rew_dim] to [hiddens[0]], its
    LayerNorm and the nonlinearity; the output stack has the layers
    [build_sequential] lays out with [layer_norm] set, for the widths
    [hiddens[1:] + [2 * task_embedding_dim]], from [hiddens[0]]: every
    linear layer in them is directly followed by its LayerNorm, and
    another value of the argument gives the same two stacks.  The
    decoder's stack is its single linear layer followed by a LayerNorm,
    so the decoder's raw output is the normalised one. *)
Theorem C10_layer_norm_always_on :
  (forall obs_dim act_dim rew_dim task_embedding_dim hiddens activation
          layer_norm g (enc : VAETaskEncoder.t T) g1,
     VAETaskEncoder.__init__ obs_dim act_dim rew_dim task_embedding_dim
       hiddens activation layer_norm g = Ok (enc, g1) ->
     exists h0 hs nonlin fc,
       hiddens = h0 :: hs /\
       activation_kind activation = Some nonlin /\
       VAETaskEncoder.input_fc enc = Some fc /\
       map kind_of fc =
         [KLinear (obs_dim + act_dim + rew_dim) h0; KLayerNorm h0; nonlin] /\
       map kind_of (VAETaskEncoder.output_fc enc) =
         layout h0 (hs ++ [task_embedding_dim * 2]) nonlin true true /\
       normalised fc = true /\
       normalised (VAETaskEncoder.output_fc enc) = true /\
       forall layer_norm',
         exists enc',
           VAETaskEncoder.__init__ obs_dim act_dim rew_dim task_embedding_dim
             hiddens activation layer_norm' g = Ok (enc', g1) /\
           VAETaskEncoder.input_fc enc' = VAETaskEncoder.input_fc enc /\
           VAETaskEncoder.output_fc enc' = VAETaskEncoder.output_fc enc) /\
  (forall task_embedding_dim obs_dim act_dim rew_dim activation g
          (dec : TaskDecoder.t T) g1,
     TaskDecoder.__init__ task_embedding_dim obs_dim act_dim rew_dim activation g
       = Ok (dec, g1) ->
     exists w b,
       TaskDecoder.decoder dec =
         [Linear (task_embedding_dim + obs_dim + act_dim) (obs_dim + rew_dim) w b;
          LayerNorm (obs_dim + rew_dim)] /\
       normalised (TaskDecoder.decoder dec) = true).
Proof.
  split.
  - intros obs_dim act_dim rew_dim k hiddens activation layer_norm g enc g1 E.
    apply encoder_init_inv in E as (h0 & fc1 & fc2 & g0 & E0 & E1 & E2 & ->).
    destruct hiddens as [|h0' hs]; [discriminate|].
    assert (h0' = h0) by (cbv in E0; congruence). subst h0'.
    change (skipn 1 (h0 :: hs)) with hs in E2.
    destruct (build_sequential_layout_init _ _ _ _ _ _ E1) as (nl & Ha1 & Hk1 & _).
    destruct (build_sequential_layout_init _ _ _ _ _ _ E2) as (nl' & Ha2 & Hk2 & _).
    assert (nl' = nl) by congruence. subst nl'.
    exists h0, hs, nl, fc1. cbn [VAETaskEncoder.input_fc VAETaskEncoder.output_fc].
    split; [reflexivity|]. split; [exact Ha1|]. split; [reflexivity|].
    split; [exact Hk1|]. split; [exact Hk2|].
    split; [now apply build_sequential_normalised in E1|].
    split; [now apply build_sequential_normalised in E2|].
    intros layer_norm'. eexists. split.
    + unfold VAETaskEncoder.__init__, default_layer_norm. rewrite E0.
      rewrite bind_lift_Ok. erewrite bind_step by exact E1.
      rewrite bind_lift_Ok. erewrite bind_step by exact E2. reflexivity.
    + split; reflexivity.
  - intros te od ad rd activation g dec g1 E.
    apply decoder_init_inv in E as (w & b & _ & _ & ->).
    exists w, b. simpl. split; [reflexivity|]. now rewrite Nat.eqb_refl.
Qed.

End Specification.

Section Construction.
Context {T : Type} `{FW : Framework T}.

Lemma activation_rejected (activation : string) :
  activation <> "relu"%string -> activation <> "tanh"%string ->
  forall n hs ln oa g,
    @build_sequential T _ FW n hs activation ln oa g =
    Raise (ValueError (String.append "Unknown activation option "
                         (String.append activation "!"))).
Proof.
  intros Hr Ht n hs ln oa g. unfold build_sequential.
  apply eqb_neq in Hr, Ht. rewrite Hr, Ht. reflexivity.
Qed.

(** C5, as the code has it.  The encoder and the decoder of a [VAE] are
    built one after the other from the constructor's arguments: both take
    [task_emb_dim], [obs_dim], [act_dim] and [activation]; the encoder
    also takes [rew_dim], [hiddens] and [layer_norm]; the decoder's
    reward width is [n_agents], which is the encoder's [rew_dim] exactly
    when the two arguments are equal. *)
Theorem C5_vae_shared_arguments
    (task_emb_dim obs_dim act_dim rew_dim n_agents : nat) (hiddens : list nat)
    (activation : string) (layer_norm : bool) (g : rng) (v : VAE.t T) (g2 : rng) :
  VAE.__init__ task_emb_dim obs_dim act_dim rew_dim n_agents hiddens
    activation layer_norm g = Ok (v, g2) ->
  exists g1,
    VAETaskEncoder.__init__ obs_dim act_dim rew_dim task_emb_dim hiddens
      activation layer_norm g = Ok (VAE.encoder v, g1) /\
    TaskDecoder.__init__ task_emb_dim obs_dim act_dim n_agents activation g1
      = Ok (VAE.decoder v, g2) /\
    VAETaskEncoder.task_emb_dim (VAE.encoder v) = task_emb_dim /\
    TaskDecoder.obs_dim (VAE.decoder v) = obs_dim /\
    TaskDecoder.rew_dim (VAE.decoder v) = n_agents /\
    maps_width (TaskDecoder.decoder (VAE.decoder v))
      (task_emb_dim + obs_dim + act_dim) (obs_dim + n_agents) /\
    (TaskDecoder.rew_dim (VAE.decoder v) = rew_dim <-> n_agents = rew_dim).
Proof.
  unfold VAE.__init__. intros E.
  apply bind_Ok in E as (enc & g1 & Ee & E).
  apply bind_Ok in E as (dec & g3 & Ed & E).
  inversion E; subst. simpl. exists g1.
  split; [exact Ee|]. split; [exact Ed|].
  destruct (decoder_maps_width _ _ _ _ _ _ Ed) as (Hm & Ho & Hr).
  apply encoder_init_inv in Ee as (h0 & fc1 & fc2 & g0 & _ & _ & _ & ->).
  simpl. rewrite Hr. repeat split; trivial.
Qed.

(** C6, as the code has it.  [build_sequential] rejects an empty
    [hiddens] by its assertion (once the activation is recognised); the
    encoder's constructor fails on an empty [hiddens] earlier, with the
    index error of [hiddens[0]]; the decoder has no [hiddens] argument.
    No declared dimension is checked for positivity: with [obs_dim = 0]
    and the remaining widths positive the encoder and the decoder are
    both constructed. *)
Theorem C6_construction_checks :
  (forall n activation ln oa g,
     activation = "relu"%string \/ activation = "tanh"%string ->
     @build_sequential T _ FW n [] activation ln oa g = Raise AssertionError /\
     DimensionConfigurationError AssertionError) /\
  (forall obs_dim act_dim rew_dim k activation ln g,
     @VAETaskEncoder.__init__ T _ FW obs_dim act_dim rew_dim k [] activation ln g
       = Raise (IndexError "list index out of range")) /\
  (forall act_dim rew_dim k hiddens activation ln g,
     0 < act_dim -> 0 < rew_dim -> 0 < k ->
     hiddens <> [] -> Forall (lt 0) hiddens ->
     activation = "relu"%string \/ activation = "tanh"%string ->
     exists (enc : VAETaskEncoder.t T) g',
       VAETaskEncoder.__init__ 0 act_dim rew_dim k hiddens activation ln g
         = Ok (enc, g')) /\
  (forall task_embedding_dim act_dim rew_dim activation g,
     0 < task_embedding_dim -> 0 < act_dim -> 0 < rew_dim ->
     activation = "relu"%string \/ activation = "tanh"%string ->
     exists (dec : TaskDecoder.t T) g',
       TaskDecoder.__init__ task_embedding_dim 0 act_dim rew_dim activation g
         = Ok (dec, g')).
Proof.
  split; [|split; [|split]].
  - intros n activation ln oa g Hact. split; [|reflexivity].
    unfold build_sequential. destruct Hact as [-> | ->]; reflexivity.
  - reflexivity.
  - intros; apply encoder_init_total; trivial; lia.
  - intros; apply decoder_init_total; trivial; lia.
Qed.

(** C7, as the code has it.  For an activation other than ["relu"] and
    ["tanh"], [build_sequential] raises the ValueError for an unknown
    activation, whatever its other arguments, and so do the construction
    of a decoder and the construction of an encoder with a non-empty
    [hiddens].  With an empty [hiddens] the construction of an encoder
    fails earlier, with the index error of [hiddens[0]], which is read
    before the stack is built: that error is not the one for an unknown
    activation.  For ["relu"] and ["tanh"] the test passes: on a positive
    input width and a non-empty list of positive widths the stack is
    built, and on an empty list the error is the assertion's, not this
    one. *)
Theorem C7_unsupported_activation (activation : string) :
  (activation <> "relu"%string -> activation <> "tanh"%string ->
   let err := ValueError (String.append "Unknown activation option "
                            (String.append activation "!")) in
   UnsupportedActivation err /\
   (forall n hs ln oa g,
      @build_sequential T _ FW n hs activation ln oa g = Raise err) /\
   (forall te od ad rd g,
      @TaskDecoder.__init__ T _ FW te od ad rd activation g = Raise err) /\
   (forall od ad rd k hs ln g, hs <> [] ->
      @VAETaskEncoder.__init__ T _ FW od ad rd k hs activation ln g = Raise err) /\
   (forall od ad rd k ln g,
      @VAETaskEncoder.__init__ T _ FW od ad rd k [] activation ln g
        = Raise (IndexError "list index out of range")) /\
   ~ UnsupportedActivation (IndexError "list index out of range")) /\
  (activation = "relu"%string \/ activation = "tanh"%string ->
   (forall n hs ln oa g, 0 < n -> hs <> [] -> Forall (lt 0) hs ->
      exists (ms : @Sequential T) g',
        build_sequential n hs activation ln oa g = Ok (ms, g')) /\
   (forall n ln oa g,
      @build_sequential T _ FW n [] activation ln oa g = Raise AssertionError /\
      ~ UnsupportedActivation AssertionError)).
Proof.
  split.
  - intros Hr Ht err. pose proof (activation_rejected Hr Ht) as Hb.
    split; [now eexists|]. split; [exact Hb|]. split; [|split; [|split]].
    + intros te od ad rd g. unfold TaskDecoder.__init__.
      now rewrite bind_Raise with (e := err).
    + intros od ad rd k hs ln g Hne. unfold VAETaskEncoder.__init__.
      destruct hs as [|h0 hs]; [congruence|].
      change (getitem (h0 :: hs) 0) with (Ok h0). rewrite bind_lift_Ok.
      now rewrite bind_Raise with (e := err).
    + reflexivity.
    + intros [msg Hmsg]. discriminate Hmsg.
  - intros Hact. split.
    + intros n hs ln oa g Hn Hne Hpos. now apply build_sequential_total.
    + intros n ln oa g. split.
      * unfold build_sequential. destruct Hact as [-> | ->]; reflexivity.
      * intros [msg Hmsg]. discriminate.
Qed.

End Construction.

(** * The properties on concrete inputs *)

Module Examples.
Import Symbolic.

Local Open Scope string_scope.

Lemma C1_witness :
  exists z,
    VAETaskEncoder.reparameterise self0 (input "mu" [2; 3]) (input "log_var" [2; 3])
      (seed 0) = Ok (z, seed 1) /\
    shape z = [2; 3] /\
    item z [1; 2] =
      SAdd (SIn "mu" [1; 2])
           (SMul (SDraw 0 [1; 2]) (SExp (SMul SHalf (SIn "log_var" [1; 2])))).
Proof.
  destruct (C1_reparameterise_formula self0 (input "mu" [2; 3])
              (input "log_var" [2; 3]) (seed 0) eq_refl) as (z & E & Hs & Hi & _).
  exists z. split; [exact E|]. split; [exact Hs|].
  apply Hi. unfold in_range. simpl. repeat constructor.
Defined.

Lemma C2_witness :
  exists enc g1 out g3,
    VAETaskEncoder.__init__ 3 2 1 2 [4] "relu" true (seed 0) = Ok (enc, g1) /\
    VAETaskEncoder.forward enc (input "obs" [5; 3]) (input "act" [5; 2])
      (input "rew" [5; 1]) None g1 = Ok (out, g3) /\
    shape (VAETaskEncoder.mu out) = [5; 2] /\
    shape (VAETaskEncoder.log_var out) = [5; 2] /\
    shape (VAETaskEncoder.task_emb out) = [5; 4] /\
    shape (VAETaskEncoder.z out) = [5; 2].
Proof.
  destruct (@C2_forward_shapes sym _ _ 3 2 1 2 [4] "relu" true (seed 0))
    as (enc & g1 & E & F); try lia; [discriminate | repeat constructor | now left |].
  destruct (F [5] (input "obs" [5; 3]) (input "act" [5; 2]) (input "rew" [5; 1])
              None g1) as (out & g3 & Ef & Hm & Hl & Ht & Hz);
    try reflexivity; [now left|].
  exists enc, g1, out, g3. repeat split; assumption.
Defined.

Example forward_rank3 :
  exists enc g1 out g3,
    VAETaskEncoder.__init__ 3 2 1 2 [4; 6] "tanh" false (seed 0) = Ok (enc, g1) /\
    VAETaskEncoder.forward enc (input "obs" [7; 5; 3]) (input "act" [7; 5; 2])
      (input "rew" [7; 5; 1]) None g1 = Ok (out, g3) /\
    shape (VAETaskEncoder.mu out) = [7; 5; 2] /\
    shape (VAETaskEncoder.task_emb out) = [7; 5; 4].
Proof.
  do 4 eexists. split; [reflexivity|]. split; [reflexivity|]. split; reflexivity.
Qed.

Lemma C3_witness :
  exists dec g1 raw predicted_observation predicted_reward,
    TaskDecoder.__init__ 2 3 2 1 "relu" (seed 0) = Ok (dec, g1) /\
    TaskDecoder.raw_output dec (input "z" [5; 2]) (input "obs" [5; 3])
      (input "act" [5; 2]) = Ok raw /\
    TaskDecoder.forward dec (input "z" [5; 2]) (input "obs" [5; 3])
      (input "act" [5; 2]) = Ok (predicted_observation, predicted_reward) /\
    shape predicted_observation = [5; 3] /\
    shape predicted_reward = [5; 1] /\
    item predicted_reward [4; 0] = item raw [4; 3].
Proof.
  destruct (@C3_decoder_split sym _ _ 2 3 2 1 "relu" (seed 0))
    as (dec & g1 & E & F); try lia; [now left|].
  destruct (F [5] (input "z" [5; 2]) (input "obs" [5; 3]) (input "act" [5; 2]))
    as (raw & po & pr & Er & _ & Ef & Ho & Hr & _ & _ & Hi);
    try reflexivity; [now left|].
  exists dec, g1, raw, po, pr. repeat split; try assumption.
  apply (Hi [4] 0); [reflexivity | lia].
Defined.




(** C5 fails with [rew_dim = 1] and [n_agents = 2]: the decoder is built
    with reward width 2 and its predicted reward has last size 2. *)
Lemma C5_counterexample :
  exists v g' predicted_observation predicted_reward,
    VAE.__init__ 2 3 2 1 2 [4] "relu" true (seed 0) = Ok (v, g') /\
    TaskDecoder.rew_dim (VAE.decoder v) <> 1 /\
    TaskDecoder.forward (VAE.decoder v) (input "z" [5; 2]) (input "obs" [5; 3])
      (input "act" [5; 2]) = Ok (predicted_observation, predicted_reward) /\
    shape predicted_reward = [5; 2].
Proof.
  do 4 eexists. split; [reflexivity|]. split; [discriminate|].
  split; reflexivity.
Qed.

Lemma C5_witness :
  exists v g1 g2,
    VAE.__init__ 2 3 2 1 2 [4] "relu" true (seed 0) = Ok (v, g2) /\
    TaskDecoder.__init__ 2 3 2 2 "relu" g1 = Ok (VAE.decoder v, g2) /\
    TaskDecoder.rew_dim (VAE.decoder v) = 2.
Proof.
  assert (R : exists v g2,
            VAE.__init__ 2 3 2 1 2 [4] "relu" true (seed 0) = Ok (v, g2))
    by (do 2 eexists; reflexivity).
  destruct R as (v & g2 & E).
  destruct (@C5_vae_shared_arguments sym _ _ 2 3 2 1 2 [4] "relu" true (seed 0)
              v g2 E) as (g1 & _ & Ed & _ & _ & Hr & _).
  exists v, g1, g2. split; [exact E|]. split; [exact Ed | exact Hr].
Defined.

(** C6 fails with [obs_dim = 0]: both constructions succeed. *)
Lemma C6_counterexample :
  (exists enc g',
     VAETaskEncoder.__init__ 0 2 1 2 [4] "relu" true (seed 0) = Ok (enc, g')) /\
  (exists dec g',
     TaskDecoder.__init__ 2 0 2 1 "relu" (seed 0) = Ok (dec, g')).
Proof. split; do 2 eexists; reflexivity. Qed.

Lemma C6_witness :
  build_sequential 3 [] "relu" true false (seed 0) = Raise AssertionError /\
  VAETaskEncoder.__init__ 3 2 1 2 [] "relu" true (seed 0)
    = Raise (IndexError "list index out of range") /\
  (exists enc g',
     VAETaskEncoder.__init__ 0 2 1 2 [4; 6] "tanh" true (seed 0) = Ok (enc, g')) /\
  (exists dec g',
     TaskDecoder.__init__ 2 0 2 1 "tanh" (seed 0) = Ok (dec, g')).
Proof.
  destruct (@C6_construction_checks sym _ _) as (Hb & He & Henc & Hdec).
  split; [exact (proj1 (Hb 3 "relu" true false (seed 0) (or_introl eq_refl)))|].
  split; [exact (He 3 2 1 2 "relu" true (seed 0))|].
  split.
  - apply Henc; try lia; [discriminate | repeat constructor; lia | now right].
  - apply Hdec; try lia. now right.
Defined.

Lemma C7_witness :
  build_sequential 3 [4] "gelu" true false (seed 0)
    = Raise (ValueError "Unknown activation option gelu!") /\
  TaskDecoder.__init__ 2 3 2 1 "gelu" (seed 0)
    = Raise (ValueError "Unknown activation option gelu!") /\
  VAETaskEncoder.__init__ 3 2 1 2 [4] "gelu" true (seed 0)
    = Raise (ValueError "Unknown activation option gelu!") /\
  VAETaskEncoder.__init__ 3 2 1 2 [] "gelu" true (seed 0)
    = Raise (IndexError "list index out of range") /\
  (exists ms g', build_sequential 3 [4] "tanh" true false (seed 0) = Ok (ms, g')).
Proof.
  destruct (proj1 (@C7_unsupported_activation sym _ _ "gelu"))
    as (_ & Hb & Hd & He & Hi & _); try discriminate.
  split; [exact (Hb 3 [4] true false (seed 0))|].
  split; [exact (Hd 2 3 2 1 (seed 0))|].
  split; [apply He; discriminate|].
  split; [exact (Hi 3 2 1 2 true (seed 0))|].
  apply (proj2 (@C7_unsupported_activation sym _ _ "tanh") (or_intror eq_refl));
    [lia | discriminate | repeat constructor; lia].
Defined.

(** C7 fails for an encoder with an empty [hiddens]: with the activation
    ["gelu"] its construction raises the index error of [hiddens[0]], not
    the error for an unknown activation. *)
Lemma C7_counterexample :
  VAETaskEncoder.__init__ 3 2 1 2 [] "gelu" true (seed 0)
    = Raise (IndexError "list index out of range") /\
  ~ (exists e,
       VAETaskEncoder.__init__ 3 2 1 2 [] "gelu" true (seed 0) = Raise e /\
       UnsupportedActivation e).
Proof.
  split; [reflexivity|].
  intros (e & He & msg & Hmsg). subst e. discriminate He.
Qed.



Lemma C9_witness :
  exists enc g1,
    VAETaskEncoder.__init__ 3 2 1 2 [4] "relu" true (seed 0) = Ok (enc, g1) /\
    VAETaskEncoder.init_hidden enc 1 = Raise (AttributeError "rnn_hidden_dim").
Proof.
  assert (R : exists enc g1,
            VAETaskEncoder.__init__ 3 2 1 2 [4] "relu" true (seed 0) = Ok (enc, g1))
    by (do 2 eexists; reflexivity).
  destruct R as (enc & g1 & E).
  destruct (@C9_init_hidden_fails sym _ _ 3 2 1 2 [4] "relu" true (seed 0) enc g1 E)
    as (_ & _ & Hi).
  exists enc, g1. split; [exact E | exact (Hi 1)].
Defined.

Lemma C10_witness :
  exists enc g1 fc enc' dec g2 w b,
    VAETaskEncoder.__init__ 3 2 1 2 [4; 6] "relu" false (seed 0) = Ok (enc, g1) /\
    VAETaskEncoder.input_fc enc = Some fc /\
    map kind_of fc = [KLinear 6 4; KLayerNorm 4; KReLU] /\
    map kind_of (VAETaskEncoder.output_fc enc) =
      [KLinear 4 6; KLayerNorm 6; KReLU; KLinear 6 4; KLayerNorm 4; KReLU] /\
    VAETaskEncoder.__init__ 3 2 1 2 [4; 6] "relu" true (seed 0) = Ok (enc', g1) /\
    VAETaskEncoder.output_fc enc' = VAETaskEncoder.output_fc enc /\
    TaskDecoder.__init__ 2 3 2 1 "relu" (seed 0) = Ok (dec, g2) /\
    TaskDecoder.decoder dec = [Linear 7 4 w b; LayerNorm 4].
Proof.
  assert (R : exists enc g1,
            VAETaskEncoder.__init__ 3 2 1 2 [4; 6] "relu" false (seed 0)
              = Ok (enc, g1))
    by (do 2 eexists; reflexivity).
  destruct R as (enc & g1 & E).
  assert (R : exists dec g2,
            TaskDecoder.__init__ 2 3 2 1 "relu" (seed 0) = Ok (dec, g2))
    by (do 2 eexists; reflexivity).
  destruct R as (dec & g2 & D).
  destruct (@C10_layer_norm_always_on sym _ _) as (He & Hd).
  destruct (He 3 2 1 2 [4; 6] "relu" false (seed 0) enc g1 E)
    as (h0 & hs & nl & fc & Hh & Ha & Hfc & Hk1 & Hk2 & _ & _ & Hs).
  injection Hh as <- <-. injection Ha as <-.
  destruct (Hs true) as (enc' & E' & _ & Ho).
  destruct (Hd 2 3 2 1 "relu" (seed 0) dec g2 D) as (w & b & Hw & _).
  exists enc, g1, fc, enc', dec, g2, w, b. repeat split; assumption.
Defined.

(** Without layer normalisation a stack would not be [normalised]: the
    predicate does tell the two apart. *)
Example normalised_needs_layer_norm :
  exists ms g',
    build_sequential 3 [4] "relu" false false (seed 0) = Ok (ms, g') /\
    normalised ms = false.
Proof. do 2 eexists. split; [cbv; reflexivity | reflexivity]. Qed.

End Examples.

(** * Further properties of the code *)

(** ** The stack [build_sequential] returns *)

Section StackProperties.
Context {T : Type} `{FW : Framework T}.

(** The head of a completed stack: a linear layer from [num_inputs] with
    parameters of the matching shapes. *)
Lemma build_sequential_head num_inputs hiddens activation ln oa g
    (ms : @Sequential T) g' :
  build_sequential num_inputs hiddens activation ln oa g = Ok (ms, g') ->
  exists o w b rest,
    ms = Linear num_inputs o w b :: rest /\
    shape w = [o; num_inputs] /\ shape b = [o].
Proof.
  intros E. pose proof E as E'.
  apply build_sequential_inv in E' as (nm & body & _ & Hne & _).
  apply build_sequential_layout_init in E as (nl & _ & Hk & Hi).
  destruct hiddens as [|h0 hs]; [congruence|].
  destruct ms as [|m rest]; [discriminate|].
  simpl in Hk. inversion Hk as [[Hm Hrest]]. inversion Hi as [|? ? Him _]; subst.
  destruct m as [i o w b| | |]; try discriminate.
  simpl in Hm. inversion Hm; subst. destruct Him as (_ & Hw & Hb & _).
  now exists h0, w, b, rest.
Qed.

(** A completed stack has one linear layer per width of [hiddens], each
    after the first preceded by the nonlinearity and each followed by its
    LayerNorm when [layer_norm] is set, the widths chained from
    [num_inputs], and the nonlinearity once more at the end when
    [output_activation] is set: its layers are those of [layout]. *)
Theorem build_sequential_layout num_inputs hiddens activation ln oa g
    (ms : @Sequential T) g' :
  build_sequential num_inputs hiddens activation ln oa g = Ok (ms, g') ->
  exists nonlin,
    activation_kind activation = Some nonlin /\
    map kind_of ms = layout num_inputs hiddens nonlin ln oa /\
    length ms + 1 =
      length hiddens * (if ln then 3 else 2) + (if oa then 1 else 0).
Proof.
  intros E. pose proof E as E'.
  apply build_sequential_layout_init in E as (nl & Ha & Hk & _).
  apply build_sequential_inv in E' as (_ & _ & _ & Hne & _).
  exists nl. split; [exact Ha|]. split; [exact Hk|].
  rewrite <- (length_map kind_of), Hk.
  destruct hiddens as [|h0 hs]; [congruence|].
  unfold layout. cbn [length]. rewrite !length_app, blocks_length.
  destruct ln, oa; simpl; lia.
Qed.

(** Every linear layer of a completed stack is initialised: its weight is
    the result of [orthogonal_] with gain [sqrt2] on a fresh weight of
    shape [out, in], its bias has shape [out] and is zero at every
    index. *)
Theorem build_sequential_parameters num_inputs hiddens activation ln oa g
    (ms : @Sequential T) g' :
  build_sequential num_inputs hiddens activation ln oa g = Ok (ms, g') ->
  Forall initialised ms /\
  forall i o w b, In (Linear i o w b) ms ->
    shape w = [o; i] /\ shape b = [o] /\ forall idx, item b idx = zero.
Proof.
  intros E. apply build_sequential_layout_init in E as (nl & _ & _ & Hi).
  split; [exact Hi|].
  intros i o w b Hin. rewrite Forall_forall in Hi.
  destruct (Hi _ Hin) as (_ & Hw & Hb & Hz). now repeat split.
Qed.

(** Applied to a tensor whose last size is [num_inputs], a completed
    stack returns a tensor with the same leading sizes and last size
    [hiddens[-1]]; applied to a tensor of another last size, or of rank
    0, it raises the framework's shape error, in its first linear
    layer. *)
Theorem stack_forward_widths num_inputs hiddens activation ln oa g
    (ms : @Sequential T) g' :
  build_sequential num_inputs hiddens activation ln oa g = Ok (ms, g') ->
  (forall lead x, shape x = lead ++ [num_inputs] ->
     exists y, Sequential_forward ms x = Ok y /\
               shape y = lead ++ [last hiddens 0]) /\
  (forall lead n x, shape x = lead ++ [n] -> n <> num_inputs ->
     exists msg, Sequential_forward ms x = Raise (RuntimeError msg)) /\
  (forall x, shape x = [] ->
     exists msg, Sequential_forward ms x = Raise (RuntimeError msg)).
Proof.
  intros E. split; [|split].
  - exact (build_sequential_maps_width _ _ _ _ _ _ E).
  - intros lead n x Hx Hn.
    apply build_sequential_head in E as (o & w & b & rest & -> & Hw & Hb).
    eexists. apply Sequential_forward_first_fails. simpl.
    now apply F_linear_wrong_width with (lead := lead) (i := num_inputs) (o := o) (n := n).
  - intros x Hx.
    apply build_sequential_head in E as (o & w & b & rest & -> & Hw & Hb).
    eexists. apply Sequential_forward_first_fails. simpl.
    now apply F_linear_rank0 with (i := num_inputs) (o := o).
Qed.

End StackProperties.

(** ** The encoder's [forward] *)

Section EncoderProperties.
Context {T : Type} `{FW : Framework T}.

Lemma cat_last3_mismatch (a b c : tensor T) (la lb lc : list nat) (wa wb wc : nat) :
  shape a = la ++ [wa] -> shape b = lb ++ [wb] -> shape c = lc ++ [wc] ->
  0 < wa -> 0 < wb -> 0 < wc ->
  la <> lb \/ la <> lc ->
  exists msg, cat_last [a; b; c] = Raise (RuntimeError msg).
Proof.
  intros Ha Hb Hc Pa Pb Pc Hne. destruct a as [sa fa], b as [sb fb], c as [sc fc].
  simpl in Ha, Hb, Hc. subst sa sb sc.
  unfold cat_last, rank. simpl.
  rewrite !snoc_length, !not_empty_1d by now right. simpl.
  match goal with
  | |- context [if negb ?c then _ else _] => destruct c
  end; simpl; [|now eexists].
  rewrite !removelast_last.
  destruct (shape_eqb lb la) eqn:E1; simpl; [|now eexists].
  destruct (shape_eqb lc la) eqn:E2; simpl; [|now eexists].
  apply shape_eqb_eq in E1, E2. destruct Hne; congruence.
Qed.

Lemma forward_raw_raise (self : VAETaskEncoder.t T) obs act rew hidden g e :
  VAETaskEncoder.use_rnn self = false ->
  VAETaskEncoder.raw_output self obs act rew = Raise e ->
  VAETaskEncoder.forward self obs act rew hidden g = Raise e.
Proof.
  intros Hr E. rewrite forward_factor by exact Hr. now rewrite E.
Qed.

(** The raw output for any split of the feature widths. *)
Lemma encoder_raw_output_widths obs_dim act_dim rew_dim k hiddens activation ln g
    (enc : VAETaskEncoder.t T) g' (lead : list nat) (obs act rew : tensor T)
    (wo wa wr : nat) :
  VAETaskEncoder.__init__ obs_dim act_dim rew_dim k hiddens activation ln g
    = Ok (enc, g') ->
  0 < wo -> 0 < wa -> 0 < wr ->
  shape obs = lead ++ [wo] -> shape act = lead ++ [wa] ->
  shape rew = lead ++ [wr] ->
  (wo + wa + wr = obs_dim + act_dim + rew_dim ->
   exists x, VAETaskEncoder.raw_output enc obs act rew = Ok x /\
             shape x = lead ++ [k * 2]) /\
  (wo + wa + wr <> obs_dim + act_dim + rew_dim ->
   exists msg, VAETaskEncoder.raw_output enc obs act rew = Raise (RuntimeError msg)).
Proof.
  intros E Po Pa Pr Ho Ha Hr.
  apply encoder_init_inv in E as (h0 & fc1 & fc2 & g1 & _ & E1 & E2 & ->).
  unfold VAETaskEncoder.raw_output. simpl.
  rewrite cat_last3 with (lead := lead) (wa := wo) (wb := wa) (wc := wr)
    by assumption.
  simpl. split.
  - intros Hsum. rewrite Hsum.
    apply build_sequential_maps_width in E1, E2.
    rewrite last_last in E2. simpl in E1.
    match goal with
    | |- context [Sequential_forward fc1 ?x0] =>
        destruct (E1 lead x0 eq_refl) as (x1 & Ex1 & Hx1)
    end.
    rewrite Ex1. simpl.
    assert (Hout : (if length (shape x1) <? 3
                    then _ <~ getitem (shape x1) 0 ;; Ok (squeeze0 (unsqueeze0 x1))
                    else Ok x1) = Ok x1).
    { destruct (length (shape x1) <? 3); [|reflexivity].
      rewrite Hx1. rewrite squeeze_unsqueeze. now destruct lead. }
    rewrite Hout. simpl. exact (E2 lead x1 Hx1).
  - intros Hsum.
    apply build_sequential_head in E1 as (o & w & b & rest & -> & Hw & Hb).
    eexists. erewrite Sequential_forward_first_fails; [reflexivity|].
    simpl.
    apply F_linear_wrong_width
      with (lead := lead) (i := obs_dim + act_dim + rew_dim) (o := o)
           (n := wo + wa + wr); trivial.
Qed.

Lemma split_and_sample_final_hiddens (self : VAETaskEncoder.t T) (x : tensor T)
    g out g' :
  split_and_sample self x g = Ok (out, g') ->
  VAETaskEncoder.final_hiddens out = None.
Proof.
  unfold split_and_sample. intros E.
  apply bind_Ok in E as ([m l] & g1 & _ & E).
  apply bind_Ok in E as (te & g2 & _ & E).
  apply bind_Ok in E as (z & g3 & _ & E).
  inversion E. reflexivity.
Qed.

(** [forward] on a raw output of rank 2 or 3 and last size [2k], in
    full. *)
Lemma encoder_forward_explicit (self : VAETaskEncoder.t T) obs act rew hidden g
    (x : tensor T) (lead : list nat) :
  VAETaskEncoder.use_rnn self = false ->
  let k := VAETaskEncoder.task_emb_dim self in
  VAETaskEncoder.raw_output self obs act rew = Ok x ->
  shape x = lead ++ [k * 2] -> length lead = 1 \/ length lead = 2 ->
  exists out,
    VAETaskEncoder.forward self obs act rew hidden g
      = Ok (out, snd (randn (lead ++ [k]) g)) /\
    shape (VAETaskEncoder.mu out) = lead ++ [k] /\
    shape (VAETaskEncoder.log_var out) = lead ++ [k] /\
    shape (VAETaskEncoder.z out) = lead ++ [k] /\
    (forall i j, length i = length lead ->
       item (VAETaskEncoder.mu out) (i ++ [j]) = item x (i ++ [j]) /\
       item (VAETaskEncoder.log_var out) (i ++ [j]) = item x (i ++ [j + k])) /\
    (forall idx, in_range (lead ++ [k]) idx ->
       item (VAETaskEncoder.z out) idx =
       add (item (VAETaskEncoder.mu out) idx)
           (mul (fst (randn (lead ++ [k]) g) idx)
                (exp (mul half (item (VAETaskEncoder.log_var out) idx))))).
Proof.
  intros Hr k Ex Hx Hl.
  rewrite forward_factor by exact Hr. rewrite Ex, bind_lift_Ok.
  rewrite split_and_sample_unfold with (lead := lead) (w := k * 2) by assumption.
  fold k.
  assert (Hmin : Nat.min k (k * 2) = k) by lia.
  assert (Hsub : k * 2 - k = k) by lia.
  rewrite Hmin, Hsub.
  match goal with
  | |- context [VAETaskEncoder.reparameterise self ?m ?l] =>
      destruct (reparameterise_spec self m l g eq_refl) as (z & Ez & Hz & Hitem)
  end.
  simpl in Ez, Hz, Hitem.
  erewrite bind_step by exact Ez.
  eexists. split; [reflexivity|]. simpl.
  split; [reflexivity|]. split; [reflexivity|]. split; [exact Hz|]. split.
  - intros i j Hi. split; [reflexivity|]. now rewrite <- Hi, map_nth_last.
  - exact Hitem.
Qed.

End EncoderProperties.

Section EncoderTheorems.
Context {T : Type} `{FW : Framework T}.

(** Inputs that do not share their leading sizes are refused by the
    concatenation, in the encoder and in the decoder alike, whatever the
    instance: no layer is applied and no noise is drawn. *)
Theorem forward_mismatched_leading_sizes
    (a b c : tensor T) (la lb lc : list nat) (wa wb wc : nat) :
  shape a = la ++ [wa] -> shape b = lb ++ [wb] -> shape c = lc ++ [wc] ->
  0 < wa -> 0 < wb -> 0 < wc ->
  la <> lb \/ la <> lc ->
  (forall (self : VAETaskEncoder.t T) hidden g,
     exists msg, VAETaskEncoder.forward self a b c hidden g
                   = Raise (RuntimeError msg)) /\
  (forall (self : TaskDecoder.t T),
     exists msg, TaskDecoder.forward self a b c = Raise (RuntimeError msg)).
Proof.
  intros Ha Hb Hc Pa Pb Pc Hne.
  destruct (cat_last3_mismatch a b c Ha Hb Hc Pa Pb Pc Hne) as (msg & E).
  split.
  - intros self hidden g. exists msg.
    unfold VAETaskEncoder.forward. now rewrite E.
  - intros self. exists msg. unfold TaskDecoder.forward. now rewrite E.
Qed.

(** The encoder only sees the concatenation: on inputs of rank 2 or 3
    with common leading sizes, [forward] returns whenever the three
    widths add up to [obs_dim + act_dim + rew_dim], however they are
    split, and raises the framework's shape error (in the first linear
    layer) whenever they do not. *)
Theorem encoder_forward_total_width
    obs_dim act_dim rew_dim k hiddens activation ln g
    (enc : VAETaskEncoder.t T) g1 (lead : list nat) (obs act rew : tensor T)
    (wo wa wr : nat) :
  VAETaskEncoder.__init__ obs_dim act_dim rew_dim k hiddens activation ln g
    = Ok (enc, g1) ->
  length lead = 1 \/ length lead = 2 ->
  0 < wo -> 0 < wa -> 0 < wr ->
  shape obs = lead ++ [wo] -> shape act = lead ++ [wa] ->
  shape rew = lead ++ [wr] ->
  (wo + wa + wr = obs_dim + act_dim + rew_dim ->
   forall hidden g2, exists out g3,
     VAETaskEncoder.forward enc obs act rew hidden g2 = Ok (out, g3) /\
     shape (VAETaskEncoder.mu out) = lead ++ [k] /\
     shape (VAETaskEncoder.log_var out) = lead ++ [k] /\
     shape (VAETaskEncoder.z out) = lead ++ [k]) /\
  (wo + wa + wr <> obs_dim + act_dim + rew_dim ->
   forall hidden g2, exists msg,
     VAETaskEncoder.forward enc obs act rew hidden g2 = Raise (RuntimeError msg)).
Proof.
  intros E Hl Po Pa Pr Ho Ha Hr.
  destruct encoder_raw_output_widths
    with (1 := E) (lead := lead) (obs := obs) (act := act) (rew := rew)
         (wo := wo) (wa := wa) (wr := wr) as [Hok Hbad]; trivial.
  apply encoder_init_inv in E as (h0 & fc1 & fc2 & g0 & _ & _ & _ & ->).
  split.
  - intros Hsum hidden g2. destruct (Hok Hsum) as (x & Ex & Hx).
    match goal with
    | |- context [VAETaskEncoder.forward ?s _ _ _ _ _] =>
        destruct (@encoder_forward_explicit T H FW s obs act rew hidden g2 x lead
                    eq_refl Ex Hx Hl) as (out & Ef & Hm & Hv & Hz & _)
    end.
    eexists _, _. split; [exact Ef|]. now repeat split.
  - intros Hsum hidden g2. destruct (Hbad Hsum) as (msg & Ex).
    exists msg. now apply forward_raw_raise.
Qed.

(** Inputs without a batch axis are not supported: on three vectors of
    the right widths both stacks are applied, and the call then fails
    with an IndexError on the two-index slice [x[:, :k]] of the rank-1
    raw output. *)
Theorem encoder_forward_rank1
    obs_dim act_dim rew_dim k hiddens activation ln g
    (enc : VAETaskEncoder.t T) g1 (obs act rew : tensor T) :
  VAETaskEncoder.__init__ obs_dim act_dim rew_dim k hiddens activation ln g
    = Ok (enc, g1) ->
  0 < obs_dim -> 0 < act_dim -> 0 < rew_dim ->
  shape obs = [obs_dim] -> shape act = [act_dim] -> shape rew = [rew_dim] ->
  exists x,
    VAETaskEncoder.raw_output enc obs act rew = Ok x /\
    shape x = [k * 2] /\
    forall hidden g2, exists msg,
      VAETaskEncoder.forward enc obs act rew hidden g2
        = Raise (IndexError msg).
Proof.
  intros E Po Pa Pr Ho Ha Hr.
  destruct encoder_raw_output_total
    with (1 := E) (lead := @nil nat) (obs := obs) (act := act) (rew := rew)
    as (x & Ex & Hx); trivial.
  exists x. split; [exact Ex|]. split; [exact Hx|].
  intros hidden g2.
  apply encoder_init_inv in E as (h0 & fc1 & fc2 & g0 & _ & _ & _ & ->).
  rewrite forward_factor by reflexivity. rewrite Ex, bind_lift_Ok.
  unfold split_and_sample, getitem_upto, too_many_indices, rank. rewrite Hx.
  eexists. reflexivity.
Qed.



(** A constructed encoder never uses the optional hidden state: the
    result of [forward], value or error, is the same for every [hiddens]
    argument, and what it returns carries no final hidden state. *)
Theorem encoder_forward_ignores_hidden_state
    obs_dim act_dim rew_dim k hiddens activation ln g
    (enc : VAETaskEncoder.t T) g1 (obs act rew : tensor T) g2 :
  VAETaskEncoder.__init__ obs_dim act_dim rew_dim k hiddens activation ln g
    = Ok (enc, g1) ->
  (forall hidden hidden',
     VAETaskEncoder.forward enc obs act rew hidden g2 =
     VAETaskEncoder.forward enc obs act rew hidden' g2) /\
  (forall hidden out g3,
     VAETaskEncoder.forward enc obs act rew hidden g2 = Ok (out, g3) ->
     VAETaskEncoder.final_hiddens out = None).
Proof.
  intros E.
  apply encoder_init_inv in E as (h0 & fc1 & fc2 & g0 & _ & _ & _ & ->).
  split.
  - intros hidden hidden'. now rewrite !forward_factor by reflexivity.
  - intros hidden out g3 F. rewrite forward_factor in F by reflexivity.
    apply bind_Ok in F as (x & g4 & _ & F).
    now apply split_and_sample_final_hiddens in F.
Qed.

End EncoderTheorems.

(** ** The decoder's [forward], and the two in sequence *)

Section DecoderProperties.
Context {T : Type} `{FW : Framework T}.

Lemma decoder_forward_raw (dec : TaskDecoder.t T) (task_emb obs act : tensor T) p :
  TaskDecoder.forward dec task_emb obs act = Ok p ->
  exists raw, TaskDecoder.raw_output dec task_emb obs act = Ok raw.
Proof.
  unfold TaskDecoder.forward, TaskDecoder.raw_output.
  destruct (cat_last [task_emb; obs; act]) as [x|e]; simpl; [|discriminate].
  destruct (Sequential_forward (TaskDecoder.decoder dec) x) as [raw|e]; simpl;
    [|discriminate].
  intros _. now exists raw.
Qed.

(** [forward] on a raw output of rank 2 or 3, in full. *)
Lemma decoder_forward_explicit (dec : TaskDecoder.t T)
    (task_emb obs act raw : tensor T) (lead : list nat) (w : nat) :
  TaskDecoder.raw_output dec task_emb obs act = Ok raw ->
  shape raw = lead ++ [w] -> length lead = 1 \/ length lead = 2 ->
  TaskDecoder.forward dec task_emb obs act =
  Ok (mkTensor (lead ++ [Nat.min (TaskDecoder.obs_dim dec) w]) (item raw),
      mkTensor (lead ++ [w - TaskDecoder.obs_dim dec])
        (fun idx => item raw
           (map_nth (fun i => i + TaskDecoder.obs_dim dec) (length lead) idx))).
Proof.
  intros Eraw Hraw Hl.
  rewrite (decoder_forward_factor _ _ _ _ Eraw).
  unfold rank. rewrite Hraw, snoc_length.
  destruct Hl as [Hl | Hl]; rewrite Hl;
    change (2 =? 2) with true; change (3 =? 2) with false;
    change (3 =? 3) with true; cbv iota;
    rewrite getitem_upto_last with (lead := lead) (w := w)
      by (exact Hraw || (symmetry; exact Hl));
    rewrite getitem_from_last with (lead := lead) (w := w)
      by (exact Hraw || (symmetry; exact Hl));
    reflexivity.
Qed.

End DecoderProperties.

Section DecoderTheorems.
Context {T : Type} `{FW : Framework T}.

(** Whatever [forward] returns, the two predictions concatenated along
    the last axis give the stack's raw output back: nothing of it is
    dropped or repeated by the split at [obs_dim]. *)
Theorem decoder_predictions_rebuild_raw (dec : TaskDecoder.t T)
    (task_emb obs act obs_pred rew_pred : tensor T) :
  TaskDecoder.forward dec task_emb obs act = Ok (obs_pred, rew_pred) ->
  exists raw t,
    TaskDecoder.raw_output dec task_emb obs act = Ok raw /\
    cat_last [obs_pred; rew_pred] = Ok t /\
    tensor_eq t raw.
Proof.
  intros F. destruct (decoder_forward_raw _ _ _ _ F) as (raw & Eraw).
  assert (Hr : rank raw = 2 \/ rank raw = 3).
  { rewrite (decoder_forward_factor _ _ _ _ Eraw) in F.
    destruct (Nat.eqb_spec (rank raw) 2); [now left|].
    destruct (Nat.eqb_spec (rank raw) 3); [now right | discriminate]. }
  destruct (@shape_snoc (shape raw)) as (lead & w & Hraw & Hlen).
  { unfold rank in Hr. destruct (shape raw); [simpl in Hr; lia | discriminate]. }
  unfold rank in Hr.
  assert (Hl : length lead = 1 \/ length lead = 2) by lia.
  rewrite decoder_forward_explicit with (raw := raw) (lead := lead) (w := w) in F
    by assumption.
  inversion F; subst. clear F.
  exists raw. eexists. split; [exact Eraw|]. split.
  - match goal with
    | |- cat_last [?a; ?b] = _ => apply (@cat_last2 T H a b lead _ _ eq_refl eq_refl)
    end.
    destruct lead; [simpl in Hl; lia | discriminate].
  - now apply cat_split_eq.
Qed.

(** The decoder only sees the concatenation too: at any rank its stack
    is applied whenever the three widths add up to
    [task_embedding_dim + obs_dim + act_dim], and on inputs of rank 2 or
    3 the predictions then have last sizes [obs_dim] and [rew_dim];
    whenever the widths do not add up, the call raises the framework's
    shape error. *)
Theorem decoder_forward_total_width te od ad rd activation g
    (dec : TaskDecoder.t T) g1 (lead : list nat) (task_emb obs act : tensor T)
    (wt wo wa : nat) :
  TaskDecoder.__init__ te od ad rd activation g = Ok (dec, g1) ->
  0 < wt -> 0 < wo -> 0 < wa ->
  shape task_emb = lead ++ [wt] -> shape obs = lead ++ [wo] ->
  shape act = lead ++ [wa] ->
  (wt + wo + wa = te + od + ad -> length lead = 1 \/ length lead = 2 ->
   exists obs_pred rew_pred,
     TaskDecoder.forward dec task_emb obs act = Ok (obs_pred, rew_pred) /\
     shape obs_pred = lead ++ [od] /\ shape rew_pred = lead ++ [rd]) /\
  (wt + wo + wa <> te + od + ad ->
   exists msg, TaskDecoder.forward dec task_emb obs act = Raise (RuntimeError msg)).
Proof.
  intros E Pt Po Pa Ht Ho Ha.
  destruct decoder_raw_output_widths
    with (1 := E) (lead := lead) (task_emb := task_emb) (obs := obs) (act := act)
         (wt := wt) (wo := wo) (wa := wa) as [Hok Hbad]; trivial.
  apply decoder_maps_width in E as (_ & Hod & _).
  split.
  - intros Hsum Hl. destruct (Hok Hsum) as (raw & Eraw & Hraw).
    rewrite decoder_forward_explicit with (raw := raw) (lead := lead) (w := od + rd)
      by assumption.
    rewrite Hod.
    eexists _, _. split; [reflexivity|]. simpl.
    split; do 2 f_equal; lia.
  - intros Hsum. destruct (Hbad Hsum) as (msg & Eraw). exists msg.
    unfold TaskDecoder.raw_output in Eraw. unfold TaskDecoder.forward.
    destruct (cat_last [task_emb; obs; act]) as [x|e]; simpl in *; [|congruence].
    now rewrite Eraw.
Qed.

(** Encoding then decoding, as the module's own demonstration does: for
    a [VAE] built from a valid configuration and a rank-2 or rank-3
    transition batch, the encoder returns a sample [z] the decoder
    accepts with the same observation and action, and the predictions
    have last sizes [obs_dim] and [n_agents]. *)
Theorem vae_encode_decode te od ad rd n_agents hiddens activation ln g
    (v : VAE.t T) g1 (lead : list nat) (obs act rew : tensor T) hidden g2 :
  VAE.__init__ te od ad rd n_agents hiddens activation ln g = Ok (v, g1) ->
  0 < te -> 0 < od -> 0 < ad -> 0 < rd ->
  length lead = 1 \/ length lead = 2 ->
  shape obs = lead ++ [od] -> shape act = lead ++ [ad] ->
  shape rew = lead ++ [rd] ->
  exists out g3 obs_pred rew_pred,
    VAETaskEncoder.forward (VAE.encoder v) obs act rew hidden g2 = Ok (out, g3) /\
    TaskDecoder.forward (VAE.decoder v) (VAETaskEncoder.z out) obs act
      = Ok (obs_pred, rew_pred) /\
    shape obs_pred = lead ++ [od] /\
    shape rew_pred = lead ++ [n_agents].
Proof.
  unfold VAE.__init__. intros E Pt Po Pa Pr Hl Ho Ha Hr.
  apply bind_Ok in E as (enc & g3 & Ee & E).
  apply bind_Ok in E as (dec & g4 & Ed & E).
  inversion E; subst. clear E. simpl.
  destruct encoder_raw_output_total
    with (1 := Ee) (lead := lead) (obs := obs) (act := act) (rew := rew)
    as (x & Ex & Hx); trivial.
  apply encoder_init_inv in Ee as (h0 & fc1 & fc2 & g0 & _ & _ & _ & ->).
  match goal with
  | Ex : VAETaskEncoder.raw_output ?s _ _ _ = _ |- _ =>
      destruct (@encoder_forward_explicit T H FW s obs act rew hidden g2 x lead
                  eq_refl Ex Hx Hl) as (out & Ef & _ & _ & Hz & _)
  end.
  simpl in Hz.
  destruct decoder_raw_output_total
    with (1 := Ed) (lead := lead) (task_emb := VAETaskEncoder.z out)
         (obs := obs) (act := act) as (raw & Eraw & Hraw); trivial.
  apply decoder_maps_width in Ed as (_ & Hod & _).
  exists out. eexists. 
  rewrite decoder_forward_explicit
    with (raw := raw) (lead := lead) (w := od + n_agents) by assumption.
  rewrite Hod.
  eexists _, _. split; [exact Ef|]. split; [reflexivity|]. simpl.
  split; do 2 f_equal; lia.
Qed.

End DecoderTheorems.

(** ** Sampling with shapes that differ *)

Lemma broadcast_rev_app_l (a b : list nat) :
  broadcast_rev (a ++ b) a = Some (a ++ b).
Proof.
  induction a as [|x a IH]; simpl.
  - now destruct b.
  - now rewrite IH, Nat.eqb_refl.
Qed.

Lemma broadcast_shapes_suffix (lead s : list nat) :
  broadcast_shapes (lead ++ s) s = Some (lead ++ s).
Proof.
  unfold broadcast_shapes. rewrite rev_app_distr, broadcast_rev_app_l. simpl.
  now rewrite <- rev_app_distr, rev_involutive.
Qed.

Lemma expand_rev_prefix (s idx rest : list nat) :
  Forall2 lt idx s -> expand_rev s (idx ++ rest) = idx.
Proof.
  induction 1 as [|i d idx s Hlt _ IH]; simpl.
  - now destruct rest.
  - rewrite IH. destruct (Nat.eqb_spec d 1); [f_equal; lia | reflexivity].
Qed.

Lemma expand_index_suffix (s i j : list nat) :
  in_range s j -> expand_index s (i ++ j) = j.
Proof.
  intros H. unfold expand_index. rewrite rev_app_distr.
  rewrite expand_rev_prefix by now apply Forall2_rev.
  apply rev_involutive.
Qed.

Lemma broadcast_shapes_clash (la lb : list nat) (a b : nat) :
  a <> b -> a <> 1 -> b <> 1 ->
  broadcast_shapes (la ++ [a]) (lb ++ [b]) = None.
Proof.
  intros Hab Ha Hb. unfold broadcast_shapes. rewrite !rev_unit. simpl.
  apply Nat.eqb_neq in Hab, Ha, Hb. rewrite Hab, Ha, Hb.
  now destruct (broadcast_rev (rev la) (rev lb)).
Qed.

Section Sampling.
Context {T : Type} `{FW : Framework T}.

(** The noise has the shape of [log_var], not of [mu].  When [mu] has
    more leading axes than [log_var], the sample has the shape of [mu]
    and one draw of the shape of [log_var] is used along all of them:
    the noise at an index does not depend on the leading part of the
    index.  When the last sizes differ and neither is 1, the call fails
    with the framework's broadcasting error. *)
Theorem reparameterise_broadcast (self : VAETaskEncoder.t T)
    (mu log_var : tensor T) (g : rng) :
  (forall lead s, shape mu = lead ++ s -> shape log_var = s ->
     exists z,
       VAETaskEncoder.reparameterise self mu log_var g
         = Ok (z, snd (randn s g)) /\
       shape z = lead ++ s /\
       forall i j, in_range lead i -> in_range s j ->
         item z (i ++ j) =
         add (item mu (i ++ j))
             (mul (fst (randn s g) j) (exp (mul half (item log_var j))))) /\
  (forall la lb a b, shape mu = la ++ [a] -> shape log_var = lb ++ [b] ->
     a <> b -> a <> 1 -> b <> 1 ->
     exists msg,
       VAETaskEncoder.reparameterise self mu log_var g = Raise (RuntimeError msg)).
Proof.
  split.
  - intros lead s Hm Hv.
    unfold VAETaskEncoder.reparameterise, bind, randn_like, lift, ret,
      tensor_mul, tensor_add, broadcast2, torch_exp, scalar_mul, tmap.
    simpl. rewrite Hv. destruct (randn s g) as [eps g1]. simpl.
    rewrite broadcast_shapes_same. simpl.
    rewrite Hm, broadcast_shapes_suffix.
    eexists. split; [reflexivity|]. split; [reflexivity|].
    intros i j Hi Hj. simpl.
    rewrite expand_index_in_range by (unfold in_range; now apply Forall2_app).
    rewrite expand_index_suffix by exact Hj.
    now rewrite expand_index_in_range by exact Hj.
  - intros la lb a b Hm Hv Hab Ha Hb.
    unfold VAETaskEncoder.reparameterise, bind, randn_like, lift, ret,
      tensor_mul, tensor_add, broadcast2, torch_exp, scalar_mul, tmap.
    simpl. destruct (randn (shape log_var) g) as [eps g1]. simpl.
    rewrite broadcast_shapes_same. simpl.
    rewrite Hm, Hv, broadcast_shapes_clash by assumption.
    now eexists.
Qed.

End Sampling.

(** ** The training loop *)

Module TrainScriptFacts.
Import TrainScript.

Local Open Scope Z_scope.

Lemma div_succ (k n : Z) :
  0 < k -> (n + 1) / k = n / k + (if (n + 1) mod k =? 0 then 1 else 0).
Proof.
  intros Hk. destruct (Z.eqb_spec ((n + 1) mod k) 0) as [E | E];
    Z.to_euclidean_division_equations; nia.
Qed.

Section LoopFacts.
Variable V : Type.
Variable gt : V -> V -> bool.
Variable eqv : V -> V -> bool.
Variable positive : V -> bool.
Variable mean_int : list Z -> V.
Variable mean_val : list V -> V.
Variable update_parameters : status -> update_logs.
Variable batch_evaluate : status -> list V.

Local Abbreviation iteration :=
  (iteration gt eqv positive mean_int mean_val update_parameters batch_evaluate).
Local Abbreviation train :=
  (train gt eqv positive mean_int mean_val update_parameters batch_evaluate).
Local Abbreviation update_best := (update_best gt eqv positive mean_int mean_val).
Local Abbreviation success_rate_of := (success_rate_of positive mean_int).

Lemma filter_snoc (A : Type) (f : A -> bool) (l : list A) (x : A) :
  filter f (l ++ [x]) = filter f l ++ (if f x then [x] else []).
Proof. rewrite filter_app. simpl. now destruct (f x). Qed.

(** What one pass does to the counters and to the trace. *)
Lemma iteration_Done (a : args) (s s' : loop_state V) :
  iteration a s = Done s' ->
  i (st s') = i (st s) + 1 /\
  num_frames (st s') =
    num_frames (st s) + logs_num_frames (update_parameters (st s)) /\
  num_episodes (st s') =
    num_episodes (st s) + logs_episodes_done (update_parameters (st s)) /\
  checkpoints s' =
    checkpoints s +
    (if (0 <? save_interval a) && ((i (st s) + 1) mod save_interval a =? 0)
     then 1 else 0) /\
  (save_interval a <= 0 ->
   filter is_save_event (trace s') = filter is_save_event (trace s) /\
   best s' = best s).
Proof.
  unfold TrainScript.iteration, py_mod, checkpoints.
  destruct (Z.eqb_spec (log_interval a) 0) as [|Hlog]; [discriminate|].
  cbn [and_then i].
  destruct (Z.gtb_spec (save_interval a) 0) as [Hs | Hs].
  - destruct (Z.eqb_spec (save_interval a) 0) as [|_]; [lia|].
    cbn [and_then].
    assert (Hp : (0 <? save_interval a) = true) by now apply Z.ltb_lt.
    rewrite Hp. cbn [andb].
    destruct ((i (st s) + 1) mod save_interval a =? 0).
    + destruct (TrainScript.update_best _ _ _ _ _ _ _) as [b' sv].
      intros E. inversion E; subst. clear E. cbn [st trace best].
      repeat split; try lia.
      rewrite !filter_snoc.
      destruct ((i (st s) + 1) mod log_interval a =? 0), sv; cbn;
        rewrite ?filter_snoc, ?length_app; cbn; rewrite ?app_nil_r, ?length_app;
        cbn; lia.
    + intros E. inversion E; subst. clear E. cbn [st trace best].
      repeat split; try lia.
      destruct ((i (st s) + 1) mod log_interval a =? 0);
        rewrite ?filter_snoc; cbn; rewrite ?app_nil_r; lia.
  - cbn [and_then].
    assert (Hp : (0 <? save_interval a) = false) by (apply Z.ltb_ge; lia).
    rewrite Hp. cbn [andb].
    intros E. inversion E; subst. clear E. cbn [st trace best].
    repeat split; try lia.
    + destruct ((i (st s) + 1) mod log_interval a =? 0);
        rewrite ?filter_snoc; cbn; rewrite ?app_nil_r; lia.
    + destruct ((i (st s) + 1) mod log_interval a =? 0);
        rewrite ?filter_snoc; cbn; rewrite ?app_nil_r; reflexivity.
Qed.

Lemma iteration_total (a : args) (s : loop_state V) :
  log_interval a <> 0 -> exists s', iteration a s = Done s'.
Proof.
  intros Hlog. unfold TrainScript.iteration, py_mod.
  destruct (Z.eqb_spec (log_interval a) 0) as [|_]; [contradiction|].
  cbn [and_then].
  destruct (Z.gtb_spec (save_interval a) 0) as [Hs | Hs].
  - destruct (Z.eqb_spec (save_interval a) 0) as [|_]; [lia|].
    cbn [and_then].
    destruct (_ mod save_interval a =? 0); [|now eexists].
    destruct (TrainScript.update_best _ _ _ _ _ _ _) as [b' sv]. now eexists.
  - cbn [and_then]. now eexists.
Qed.

Lemma train_step (fuel : nat) (a : args) (s : loop_state V) :
  num_frames (st s) < frames a ->
  train (S fuel) a s = and_then (iteration a s) (train fuel a).
Proof. intros Hlt. cbn [TrainScript.train]. apply Z.ltb_lt in Hlt. now rewrite Hlt. Qed.

Lemma train_stop (fuel : nat) (a : args) (s : loop_state V) :
  frames a <= num_frames (st s) -> train fuel a s = Done (Some s).
Proof.
  intros Hge. apply Z.ltb_ge in Hge. destruct fuel; cbn [TrainScript.train];
    now rewrite Hge.
Qed.

(** An invariant of single passes holds along a whole run. *)
Lemma train_inv (R : loop_state V -> loop_state V -> Prop) (a : args) :
  (forall s, R s s) ->
  (forall s1 s2 s3, R s1 s2 -> iteration a s2 = Done s3 -> R s1 s3) ->
  forall fuel s s', train fuel a s = Done (Some s') -> R s s'.
Proof.
  intros Hrefl Hstep.
  assert (Hgen : forall fuel s0 s s',
             R s0 s -> train fuel a s = Done (Some s') -> R s0 s').
  { induction fuel as [|fuel IH]; intros s0 s s' H0.
    - cbn [TrainScript.train]. destruct (num_frames (st s) <? frames a);
        [discriminate|]. intros E. inversion E; subst. exact H0.
    - destruct (Z.ltb_spec (num_frames (st s)) (frames a)) as [Hlt | Hge].
      + rewrite train_step by exact Hlt.
        destruct (iteration a s) as [s1|e] eqn:E1; [|discriminate].
        cbn [and_then]. apply IH. now apply Hstep with (s2 := s).
      + rewrite train_stop by exact Hge. intros E. inversion E; subst. exact H0. }
  intros fuel s s'. apply Hgen, Hrefl.
Qed.

(** [--save-interval 0] (or a negative value) means no saving: along a
    whole run no checkpoint is written, no evaluation is recorded and the
    record of the best evaluation stays as it was.  [--log-interval 0]
    has no such meaning: the first update ends in a ZeroDivisionError. *)
Theorem train_zero_intervals (a : args) (s : loop_state V) (fuel : nat) :
  (save_interval a <= 0 ->
   forall s', train fuel a s = Done (Some s') ->
     filter is_save_event (trace s') = filter is_save_event (trace s) /\
     best s' = best s) /\
  (log_interval a = 0 -> num_frames (st s) < frames a ->
   train (S fuel) a s = Crash ZeroDivisionError).
Proof.
  split.
  - intros Hs s'.
    apply train_inv with
      (R := fun s s' =>
              filter is_save_event (trace s') = filter is_save_event (trace s) /\
              best s' = best s).
    + now split.
    + intros s1 s2 s3 [Ht Hb] E.
      destruct (iteration_Done _ _ E) as (_ & _ & _ & _ & Hn).
      destruct (Hn Hs) as [Ht' Hb']. split; congruence.
  - intros Hl Hlt. rewrite train_step by exact Hlt.
    unfold TrainScript.iteration, py_mod. rewrite Hl. reflexivity.
Qed.

(** When every update reports at least one frame (and the log interval
    is not 0), the loop ends: within [frames - num_frames] passes the
    frame counter has reached [frames], and the update counter has grown
    by at most that many.  A run restored with the target already
    reached performs no update at all. *)
Theorem train_terminates (a : args) (s : loop_state V) :
  log_interval a <> 0 ->
  (forall st, 1 <= logs_num_frames (update_parameters st)) ->
  (exists s',
     train (Z.to_nat (frames a - num_frames (st s))) a s = Done (Some s') /\
     frames a <= num_frames (st s') /\
     i (st s) <= i (st s') <= i (st s) + Z.max 0 (frames a - num_frames (st s))) /\
  (frames a <= num_frames (st s) ->
   forall fuel, train fuel a s = Done (Some s)).
Proof.
  intros Hlog Hpos. split; [|intros Hge fuel; now apply train_stop].
  assert (Hgen : forall n s,
             frames a - num_frames (st s) <= Z.of_nat n ->
             exists s', train n a s = Done (Some s') /\
                        frames a <= num_frames (st s') /\
                        i (st s) <= i (st s') <= i (st s) + Z.of_nat n).
  { induction n as [|n IH]; intros s0 Hn.
    - exists s0. rewrite train_stop by lia. repeat split; lia.
    - destruct (Z.ltb_spec (num_frames (st s0)) (frames a)) as [Hlt | Hge].
      + destruct (iteration_total a s0 Hlog) as (s1 & E1).
        destruct (iteration_Done _ _ E1) as (Hi & Hf & _).
        pose proof (Hpos (st s0)) as Hp.
        destruct (IH s1) as (s' & E & Hfin & Hcnt); [lia|].
        exists s'. rewrite train_step by exact Hlt. rewrite E1. cbn [and_then].
        repeat split; trivial; lia.
      + exists s0. rewrite train_stop by exact Hge. repeat split; lia. }
  destruct (Z.le_gt_cases (frames a) (num_frames (st s))) as [Hge | Hlt].
  - exists s. rewrite train_stop by exact Hge. repeat split; lia.
  - destruct (Hgen (Z.to_nat (frames a - num_frames (st s))) s) as (s' & E & Hf & Hc);
      [lia|].
    exists s'. split; [exact E|]. split; [exact Hf|]. lia.
Qed.

(** With a positive save interval [k], the checkpoints written during a
    run are those of the updates whose number is a multiple of [k]:
    their count is [i'/k - i/k] for the update counter [i] before and
    [i'] after, whatever the log interval. *)
Theorem train_checkpoint_count (a : args) (s s' : loop_state V) (fuel : nat) :
  0 < save_interval a ->
  train fuel a s = Done (Some s') ->
  checkpoints s' - checkpoints s =
    i (st s') / save_interval a - i (st s) / save_interval a /\
  i (st s) <= i (st s').
Proof.
  intros Hk.
  apply train_inv with
    (R := fun s s' =>
            checkpoints s' - checkpoints s =
              i (st s') / save_interval a - i (st s) / save_interval a /\
            i (st s) <= i (st s')).
  - intros s0. split; lia.
  - intros s1 s2 s3 [Hc Hi] E.
    destruct (iteration_Done _ _ E) as (Hi3 & _ & _ & Hc3 & _).
    assert (Hp : (0 <? save_interval a) = true) by now apply Z.ltb_lt.
    rewrite Hp in Hc3. cbn [andb] in Hc3.
    rewrite Hi3, (div_succ _ Hk). split; lia.
Qed.

Section Order.
Hypothesis gt_irrefl : forall x, gt x x = false.
Hypothesis gt_trans : forall x y z, gt x y = true -> gt y z = true -> gt x z = true.

Lemma update_best_first (b : V * V) (r : list V) :
  let b' := fst (update_best b r) in
  gt (success_rate_of r) (fst b') = false /\
  gt (fst b) (fst b') = false /\
  (fst b' = fst b \/ fst b' = success_rate_of r) /\
  (forall x, gt x (fst b) = false -> gt x (fst b') = false).
Proof.
  destruct b as [bsr bmr]. unfold TrainScript.update_best.
  fold (TrainScript.success_rate_of positive mean_int r).
  destruct (gt (success_rate_of r) bsr) eqn:E1; cbn.
  - repeat split; auto.
    + destruct (gt bsr (success_rate_of r)) eqn:E2; trivial.
      pose proof (gt_trans E1 E2) as C. now rewrite gt_irrefl in C.
    + intros x Hx. destruct (gt x (success_rate_of r)) eqn:E2; trivial.
      pose proof (gt_trans E2 E1) as C. congruence.
  - destruct (eqv (success_rate_of r) bsr && gt (mean_val r) bmr); cbn;
      repeat split; auto.
Qed.

Lemma fold_best (evals : list (list V)) (b0 : V * V) :
  let final := fold_left (fun b r => fst (update_best b r)) evals b0 in
  (forall r, In r evals -> gt (success_rate_of r) (fst final) = false) /\
  (forall x, gt x (fst b0) = false -> gt x (fst final) = false) /\
  (fst final = fst b0 \/ exists r, In r evals /\ fst final = success_rate_of r).
Proof.
  revert b0. induction evals as [|r evals IH]; intros b0; cbn [fold_left].
  - repeat split; [intros r [] | trivial | now left].
  - destruct (update_best_first b0 r) as (H1 & _ & H3 & H4).
    destruct (IH (fst (update_best b0 r))) as (I1 & I2 & I3).
    repeat split.
    + intros r0 [<- | Hin]; [now apply I2 | now apply I1].
    + intros x Hx. now apply I2, H4.
    + destruct I3 as [I3 | (r' & Hin & I3)].
      * rewrite I3. destruct H3 as [H3 | H3]; [now left|].
        right. exists r. split; [now left | exact H3].
      * right. exists r'. split; [now right | exact I3].
Qed.

(** Over any sequence of evaluations, [best_success_rate] is never
    exceeded by a success rate that was evaluated, never falls below its
    starting value, and is either that starting value or one of the
    evaluated success rates: it is their running maximum.  This needs of
    [>] only that it is irreflexive and transitive. *)
Theorem best_success_rate_is_maximum (evals : list (list V)) (b0 : V * V) :
  let final := fold_left (fun b r => fst (update_best b r)) evals b0 in
  (forall r, In r evals -> gt (success_rate_of r) (fst final) = false) /\
  gt (fst b0) (fst final) = false /\
  (fst final = fst b0 \/ exists r, In r evals /\ fst final = success_rate_of r).
Proof.
  destruct (fold_best evals b0) as (H1 & H2 & H3).
  split; [exact H1|]. split; [|exact H3]. apply H2, gt_irrefl.
Qed.

End Order.

(** The best mean return is only recorded on a tie.  An evaluation that
    raises the best success rate is saved and leaves [best_mean_return]
    as it was; a later evaluation with that same success rate is then
    saved as the best model as soon as its mean return exceeds that older
    value, however it compares with the mean return of the model it
    replaces. *)
Theorem best_mean_return_is_stale (b : V * V) (r1 r2 : list V) :
  gt (success_rate_of r1) (fst b) = true ->
  gt (success_rate_of r2) (success_rate_of r1) = false ->
  eqv (success_rate_of r2) (success_rate_of r1) = true ->
  gt (mean_val r2) (snd b) = true ->
  let '(b1, saved1) := update_best b r1 in
  let '(b2, saved2) := update_best b1 r2 in
  saved1 = true /\ b1 = (success_rate_of r1, snd b) /\
  saved2 = true /\ b2 = (success_rate_of r1, mean_val r2).
Proof.
  destruct b as [bsr bmr]. cbn [fst snd]. intros H1 H2 H3 H4.
  unfold TrainScript.update_best.
  fold (TrainScript.success_rate_of positive mean_int r1).
  fold (TrainScript.success_rate_of positive mean_int r2).
  rewrite H1, H2, H3, H4. cbn. repeat split.
Qed.

End LoopFacts.
End TrainScriptFacts.

(** ** The further properties on concrete inputs *)

Module MoreExamples.
Import Symbolic.

Local Open Scope string_scope.

Lemma build_sequential_layout_witness :
  exists ms g',
    build_sequential 3 [4; 6] "tanh" true true (seed 0) = Ok (ms, g') /\
    map kind_of ms =
      [KLinear 3 4; KLayerNorm 4; KTanh; KLinear 4 6; KLayerNorm 6; KTanh] /\
    length ms = 6.
Proof.
  assert (R : exists ms g',
            build_sequential 3 [4; 6] "tanh" true true (seed 0) = Ok (ms, g'))
    by (do 2 eexists; cbv; reflexivity).
  destruct R as (ms & g' & E).
  destruct (@build_sequential_layout sym _ _ 3 [4; 6] "tanh" true true (seed 0)
              ms g' E) as (nl & Ha & Hk & Hlen).
  exists ms, g'. split; [exact E|].
  inversion Ha; subst nl. split; [exact Hk|]. simpl in Hlen. lia.
Defined.

Lemma build_sequential_parameters_witness :
  exists w b rest g',
    build_sequential 3 [4] "relu" false false (seed 0)
      = Ok (Linear 3 4 w b :: rest, g') /\
    shape w = [4; 3] /\ shape b = [4] /\ item b [2] = SZero.
Proof.
  assert (R : exists w b rest g',
            build_sequential 3 [4] "relu" false false (seed 0)
              = Ok (Linear 3 4 w b :: rest, g'))
    by (do 4 eexists; cbv; reflexivity).
  destruct R as (w & b & rest & g' & E).
  destruct (@build_sequential_parameters sym _ _ 3 [4] "relu" false false (seed 0)
              _ g' E) as (_ & Hp).
  destruct (Hp 3 4 w b (or_introl eq_refl)) as (Hw & Hb & Hz).
  exists w, b, rest, g'. split; [exact E|]. split; [exact Hw|].
  split; [exact Hb | exact (Hz [2])].
Defined.

Lemma stack_forward_widths_witness :
  exists ms g' y msg,
    build_sequential 3 [4; 6] "relu" true false (seed 0) = Ok (ms, g') /\
    Sequential_forward ms (input "x" [5; 3]) = Ok y /\ shape y = [5; 6] /\
    Sequential_forward ms (input "x" [5; 4]) = Raise (RuntimeError msg).
Proof.
  assert (R : exists ms g',
            build_sequential 3 [4; 6] "relu" true false (seed 0) = Ok (ms, g'))
    by (do 2 eexists; cbv; reflexivity).
  destruct R as (ms & g' & E).
  destruct (@stack_forward_widths sym _ _ 3 [4; 6] "relu" true false (seed 0)
              ms g' E) as (Hok & Hbad & _).
  destruct (Hok [5] (input "x" [5; 3]) eq_refl) as (y & Ey & Hy).
  destruct (Hbad [5] 4 (input "x" [5; 4]) eq_refl ltac:(lia)) as (msg & Em).
  exists ms, g', y, msg. repeat split; assumption.
Defined.

Lemma forward_mismatched_leading_sizes_witness :
  exists msg,
    VAETaskEncoder.forward self0 (input "obs" [5; 3]) (input "act" [4; 2])
      (input "rew" [5; 1]) None (seed 0) = Raise (RuntimeError msg).
Proof.
  destruct (@forward_mismatched_leading_sizes sym _ _
              (input "obs" [5; 3]) (input "act" [4; 2]) (input "rew" [5; 1])
              [5] [4] [5] 3 2 1 eq_refl eq_refl eq_refl)
    as (He & _); try lia; [left; discriminate|].
  exact (He self0 None (seed 0)).
Defined.

Lemma encoder_forward_total_width_witness :
  exists enc g1 out g3 msg,
    VAETaskEncoder.__init__ 3 2 1 2 [4] "relu" true (seed 0) = Ok (enc, g1) /\
    VAETaskEncoder.forward enc (input "obs" [5; 1]) (input "act" [5; 1])
      (input "rew" [5; 4]) None g1 = Ok (out, g3) /\
    shape (VAETaskEncoder.mu out) = [5; 2] /\
    VAETaskEncoder.forward enc (input "obs" [5; 3]) (input "act" [5; 3])
      (input "rew" [5; 1]) None g1 = Raise (RuntimeError msg).
Proof.
  assert (R : exists enc g1,
            VAETaskEncoder.__init__ 3 2 1 2 [4] "relu" true (seed 0) = Ok (enc, g1))
    by (do 2 eexists; reflexivity).
  destruct R as (enc & g1 & E).
  destruct (@encoder_forward_total_width sym _ _ 3 2 1 2 [4] "relu" true (seed 0)
              enc g1 [5] (input "obs" [5; 1]) (input "act" [5; 1])
              (input "rew" [5; 4]) 1 1 4 E)
    as (Hok & _); try lia; try reflexivity; [now left|].
  destruct (@encoder_forward_total_width sym _ _ 3 2 1 2 [4] "relu" true (seed 0)
              enc g1 [5] (input "obs" [5; 3]) (input "act" [5; 3])
              (input "rew" [5; 1]) 3 3 1 E)
    as (_ & Hbad); try lia; try reflexivity; [now left|].
  destruct (Hok eq_refl None g1) as (out & g3 & Ef & Hm & _).
  destruct (Hbad ltac:(lia) None g1) as (msg & Eb).
  exists enc, g1, out, g3, msg. repeat split; assumption.
Defined.

Lemma encoder_forward_rank1_witness :
  exists enc g1 x msg,
    VAETaskEncoder.__init__ 3 2 1 2 [4] "relu" true (seed 0) = Ok (enc, g1) /\
    VAETaskEncoder.raw_output enc (input "obs" [3]) (input "act" [2])
      (input "rew" [1]) = Ok x /\
    shape x = [4] /\
    VAETaskEncoder.forward enc (input "obs" [3]) (input "act" [2])
      (input "rew" [1]) None g1 = Raise (IndexError msg).
Proof.
  assert (R : exists enc g1,
            VAETaskEncoder.__init__ 3 2 1 2 [4] "relu" true (seed 0) = Ok (enc, g1))
    by (do 2 eexists; reflexivity).
  destruct R as (enc & g1 & E).
  destruct (@encoder_forward_rank1 sym _ _ 3 2 1 2 [4] "relu" true (seed 0)
              enc g1 (input "obs" [3]) (input "act" [2]) (input "rew" [1]) E)
    as (x & Ex & Hx & Hf); try lia; try reflexivity.
  destruct (Hf None g1) as (msg & Em).
  exists enc, g1, x, msg. repeat split; assumption.
Defined.



Lemma encoder_forward_ignores_hidden_state_witness :
  exists enc g1,
    VAETaskEncoder.__init__ 3 2 1 2 [4] "relu" true (seed 0) = Ok (enc, g1) /\
    VAETaskEncoder.forward enc (input "obs" [5; 3]) (input "act" [5; 2])
      (input "rew" [5; 1]) (Some (input "h" [5; 4])) g1 =
    VAETaskEncoder.forward enc (input "obs" [5; 3]) (input "act" [5; 2])
      (input "rew" [5; 1]) None g1.
Proof.
  assert (R : exists enc g1,
            VAETaskEncoder.__init__ 3 2 1 2 [4] "relu" true (seed 0) = Ok (enc, g1))
    by (do 2 eexists; reflexivity).
  destruct R as (enc & g1 & E).
  destruct (@encoder_forward_ignores_hidden_state sym _ _ 3 2 1 2 [4] "relu" true
              (seed 0) enc g1 (input "obs" [5; 3]) (input "act" [5; 2])
              (input "rew" [5; 1]) g1 E) as (Hi & _).
  exists enc, g1. split; [exact E|]. apply Hi.
Defined.

Lemma decoder_predictions_rebuild_raw_witness :
  exists dec g1 obs_pred rew_pred raw t,
    TaskDecoder.__init__ 2 3 2 1 "relu" (seed 0) = Ok (dec, g1) /\
    TaskDecoder.forward dec (input "z" [5; 2]) (input "obs" [5; 3])
      (input "act" [5; 2]) = Ok (obs_pred, rew_pred) /\
    TaskDecoder.raw_output dec (input "z" [5; 2]) (input "obs" [5; 3])
      (input "act" [5; 2]) = Ok raw /\
    cat_last [obs_pred; rew_pred] = Ok t /\
    tensor_eq t raw.
Proof.
  assert (R : exists dec g1 obs_pred rew_pred,
            TaskDecoder.__init__ 2 3 2 1 "relu" (seed 0) = Ok (dec, g1) /\
            TaskDecoder.forward dec (input "z" [5; 2]) (input "obs" [5; 3])
              (input "act" [5; 2]) = Ok (obs_pred, rew_pred))
    by (do 4 eexists; split; reflexivity).
  destruct R as (dec & g1 & po & pr & E & F).
  destruct (@decoder_predictions_rebuild_raw sym _ _ dec (input "z" [5; 2])
              (input "obs" [5; 3]) (input "act" [5; 2]) po pr F)
    as (raw & t & Er & Ec & Ht).
  exists dec, g1, po, pr, raw, t. repeat split; try assumption; apply Ht.
Defined.

Lemma decoder_forward_total_width_witness :
  exists dec g1 obs_pred rew_pred msg,
    TaskDecoder.__init__ 2 3 2 1 "relu" (seed 0) = Ok (dec, g1) /\
    TaskDecoder.forward dec (input "z" [5; 4]) (input "obs" [5; 2])
      (input "act" [5; 1]) = Ok (obs_pred, rew_pred) /\
    shape obs_pred = [5; 3] /\ shape rew_pred = [5; 1] /\
    TaskDecoder.forward dec (input "z" [2; 5; 2]) (input "obs" [2; 5; 3])
      (input "act" [2; 5; 3]) = Raise (RuntimeError msg).
Proof.
  assert (R : exists dec g1,
            TaskDecoder.__init__ 2 3 2 1 "relu" (seed 0) = Ok (dec, g1))
    by (do 2 eexists; reflexivity).
  destruct R as (dec & g1 & E).
  destruct (@decoder_forward_total_width sym _ _ 2 3 2 1 "relu" (seed 0) dec g1
              [5] (input "z" [5; 4]) (input "obs" [5; 2]) (input "act" [5; 1])
              4 2 1 E) as (Hok & _); try lia; try reflexivity.
  destruct (@decoder_forward_total_width sym _ _ 2 3 2 1 "relu" (seed 0) dec g1
              [2; 5] (input "z" [2; 5; 2]) (input "obs" [2; 5; 3])
              (input "act" [2; 5; 3]) 2 3 3 E) as (_ & Hbad);
    try lia; try reflexivity.
  destruct (Hok eq_refl (or_introl eq_refl)) as (po & pr & Ef & Ho & Hr).
  destruct (Hbad ltac:(lia)) as (msg & Eb).
  exists dec, g1, po, pr, msg. repeat split; assumption.
Defined.

Lemma vae_encode_decode_witness :
  exists v g1 out g3 obs_pred rew_pred,
    VAE.__init__ 2 3 2 1 4 [4] "relu" true (seed 0) = Ok (v, g1) /\
    VAETaskEncoder.forward (VAE.encoder v) (input "obs" [5; 3])
      (input "act" [5; 2]) (input "rew" [5; 1]) None g1 = Ok (out, g3) /\
    TaskDecoder.forward (VAE.decoder v) (VAETaskEncoder.z out)
      (input "obs" [5; 3]) (input "act" [5; 2]) = Ok (obs_pred, rew_pred) /\
    shape obs_pred = [5; 3] /\ shape rew_pred = [5; 4].
Proof.
  assert (R : exists v g1,
            VAE.__init__ 2 3 2 1 4 [4] "relu" true (seed 0) = Ok (v, g1))
    by (do 2 eexists; reflexivity).
  destruct R as (v & g1 & E).
  destruct (@vae_encode_decode sym _ _ 2 3 2 1 4 [4] "relu" true (seed 0) v g1
              [5] (input "obs" [5; 3]) (input "act" [5; 2]) (input "rew" [5; 1])
              None g1 E)
    as (out & g3 & po & pr & Ef & Ed & Ho & Hr); try lia; try reflexivity;
    [now left|].
  exists v, g1, out, g3, po, pr. repeat split; assumption.
Defined.

Lemma reparameterise_broadcast_witness :
  exists z msg,
    VAETaskEncoder.reparameterise self0 (input "mu" [5; 3])
      (input "log_var" [3]) (seed 0) = Ok (z, seed 1) /\
    shape z = [5; 3] /\
    item z [4; 2] =
      SAdd (SIn "mu" [4; 2])
           (SMul (SDraw 0 [2]) (SExp (SMul SHalf (SIn "log_var" [2])))) /\
    VAETaskEncoder.reparameterise self0 (input "mu" [5; 3])
      (input "log_var" [5; 2]) (seed 0) = Raise (RuntimeError msg).
Proof.
  destruct (@reparameterise_broadcast sym _ _ self0 (input "mu" [5; 3])
              (input "log_var" [3]) (seed 0)) as (Hok & _).
  destruct (Hok [5] [3] eq_refl eq_refl) as (z & Ez & Hs & Hi).
  destruct (@reparameterise_broadcast sym _ _ self0 (input "mu" [5; 3])
              (input "log_var" [5; 2]) (seed 0)) as (_ & Hbad).
  destruct (Hbad [5] [5] 3 2 eq_refl eq_refl) as (msg & Em); try lia.
  exists z, msg. split; [exact Ez|]. split; [exact Hs|]. split; [|exact Em].
  apply (Hi [4] [2]); unfold in_range; repeat constructor.
Defined.

Local Open Scope Z_scope.
Import TrainScript.

Lemma train_zero_intervals_witness :
  (exists s',
     z_train 10 (mkArgs 200 1 0) z_start = Done (Some s') /\
     filter is_save_event (trace s') = [] /\ best s' = (0, 0)) /\
  z_train 10 (mkArgs 200 0 5) z_start = Crash ZeroDivisionError.
Proof.
  assert (R : exists s', z_train 10 (mkArgs 200 1 0) z_start = Done (Some s'))
    by (eexists; vm_compute; reflexivity).
  destruct R as (s' & E).
  destruct (@TrainScriptFacts.train_zero_intervals Z Z.gtb Z.eqb (Z.ltb 0)
              z_mean_int z_mean z_update_parameters z_batch_evaluate
              (mkArgs 200 1 0) z_start 10) as (Hs & _).
  destruct (Hs ltac:(simpl; lia) s' E) as (Ht & Hb).
  destruct (@TrainScriptFacts.train_zero_intervals Z Z.gtb Z.eqb (Z.ltb 0)
              z_mean_int z_mean z_update_parameters z_batch_evaluate
              (mkArgs 200 0 5) z_start 9) as (_ & Hl).
  split; [exists s'; repeat split; assumption|].
  apply Hl; [reflexivity | simpl; lia].
Defined.

Lemma train_terminates_witness :
  exists s',
    z_train 200 (mkArgs 200 1 2) z_start = Done (Some s') /\
    200 <= num_frames (st s') /\ i (st s') <= 200.
Proof.
  destruct (@TrainScriptFacts.train_terminates Z Z.gtb Z.eqb (Z.ltb 0)
              z_mean_int z_mean z_update_parameters z_batch_evaluate
              (mkArgs 200 1 2) z_start) as ((s' & E & Hf & Hi) & _).
  - cbn. lia.
  - intros st0. cbn. lia.
  - exists s'. split; [exact E|]. split; [exact Hf|]. cbn in Hi. lia.
Defined.

Lemma train_checkpoint_count_witness :
  exists s',
    z_train 11 (mkArgs 700 1 3) z_start = Done (Some s') /\
    i (st s') = 11 /\ checkpoints s' = 3.
Proof.
  unfold z_train.
  assert (R : exists s',
            train Z.gtb Z.eqb (Z.ltb 0) z_mean_int z_mean z_update_parameters
              z_batch_evaluate 11 (mkArgs 700 1 3) z_start = Done (Some s') /\
            i (st s') = 11)
    by (eexists; split; [vm_compute; reflexivity | reflexivity]).
  destruct R as (s' & E & Hi).
  destruct (@TrainScriptFacts.train_checkpoint_count Z Z.gtb Z.eqb (Z.ltb 0)
              z_mean_int z_mean z_update_parameters z_batch_evaluate
              (mkArgs 700 1 3) z_start s' 11%nat ltac:(cbn; lia) E) as (Hc & _).
  exists s'. split; [exact E|]. split; [exact Hi|].
  rewrite Hi in Hc. change (checkpoints z_start) with 0 in Hc.
  change (i (st z_start)) with 0 in Hc.
  change (save_interval (mkArgs 700 1 3)) with 3 in Hc.
  change (11 / 3) with 3 in Hc. change (0 / 3) with 0 in Hc. lia.
Defined.

Lemma best_success_rate_is_maximum_witness :
  fst (fold_left
         (fun b r => fst (update_best Z.gtb Z.eqb (Z.ltb 0) z_mean_int z_mean b r))
         [[0; 10]; [5; 7]; [0; 0]] (0, 0)) = 100 /\
  Z.gtb (success_rate_of (Z.ltb 0) z_mean_int [0; 10]) 100 = false.
Proof.
  destruct (@TrainScriptFacts.best_success_rate_is_maximum Z Z.gtb Z.eqb (Z.ltb 0)
              z_mean_int z_mean) with (evals := [[0; 10]; [5; 7]; [0; 0]])
              (b0 := (0, 0)) as (Hall & _ & _).
  - intros x. rewrite Z.gtb_ltb. apply Z.ltb_irrefl.
  - intros x y z. rewrite !Z.gtb_gt. lia.
  - split; [reflexivity|]. exact (Hall [0; 10] (or_introl eq_refl)).
Defined.

Lemma best_mean_return_is_stale_witness :
  update_best Z.gtb Z.eqb (Z.ltb 0) z_mean_int z_mean (0, 40) [90; 90]
    = ((100, 40), true) /\
  update_best Z.gtb Z.eqb (Z.ltb 0) z_mean_int z_mean (100, 40) [50; 50]
    = ((100, 50), true).
Proof.
  pose proof (@TrainScriptFacts.best_mean_return_is_stale Z Z.gtb Z.eqb (Z.ltb 0)
                z_mean_int z_mean (0, 40) [90; 90] [50; 50]
                eq_refl eq_refl eq_refl eq_refl) as H.
  cbv beta in H.
  destruct (update_best Z.gtb Z.eqb (Z.ltb 0) z_mean_int z_mean (0, 40) [90; 90])
    as [b1 s1] eqn:E1.
  destruct (update_best Z.gtb Z.eqb (Z.ltb 0) z_mean_int z_mean b1 [50; 50])
    as [b2 s2] eqn:E2.
  destruct H as (-> & -> & -> & ->).
  split; [reflexivity | exact E2].
Defined.

End MoreExamples.
